(** * The documentation workflow of main.py: research, document, analyze, final.

    A shallow embedding of the workflow nodes of [main.py] and of the string
    and syntax-tree operations they are built from, followed by the
    properties of the import extractor, the documentation check, the router,
    the code-fence clean-up and the issue extraction.

    Python values are modelled as follows.
    - [str] is [string]; a character stands for the code point of the same
      number, so the model covers the strings whose code points are below 256.
      [isspace] and [lower] are Python's on that range.
    - a call that can raise returns [option], [None] standing for the
      exception.
    - the replies of the language model and the result of [ast.parse] are
      inputs of the model: the nodes take them as arguments. *)

From Stdlib Require Import Strings.String Strings.Ascii.
From Stdlib Require Import Lists.List Bool.Bool Arith.Arith Arith.PeanoNat micromega.Lia.
From Stdlib Require Import ZArith.ZArith Numbers.DecimalString Sorting.Permutation.
From Equations Require Import Equations.
Import ListNotations.

Local Open Scope list_scope.
Local Open Scope string_scope.

(** ** Python's [str] operations used by main.py *)

Module PyStr.

(** [c.isspace()] for a code point below 256: the ASCII controls 9..13 and
    28..31, the space, NEL (133) and the no-break space (160). *)
Definition isspace (c : ascii) : bool :=
  let n := nat_of_ascii c in
  (((9 <=? n) && (n <=? 13)) || ((28 <=? n) && (n <=? 32))
   || (n =? 133) || (n =? 160))%nat.

(** [c.lower()] for a code point below 256: A..Z and the capital letters of
    Latin-1 (192..222 but the multiplication sign 215) move up by 32. *)
Definition lower_char (c : ascii) : ascii :=
  let n := nat_of_ascii c in
  if (((65 <=? n) && (n <=? 90))
      || ((192 <=? n) && (n <=? 222) && negb (n =? 215)))%nat
  then ascii_of_nat (n + 32) else c.

(** [s.lower()] *)
Fixpoint lower (s : string) : string :=
  match s with
  | EmptyString => EmptyString
  | String c s' => String (lower_char c) (lower s')
  end.

(** [s.lstrip()] *)
Fixpoint lstrip (s : string) : string :=
  match s with
  | EmptyString => EmptyString
  | String c s' => if isspace c then lstrip s' else s
  end.

(** [s.rstrip()] *)
Fixpoint rstrip (s : string) : string :=
  match s with
  | EmptyString => EmptyString
  | String c s' =>
      match rstrip s' with
      | EmptyString => if isspace c then EmptyString else String c EmptyString
      | t => String c t
      end
  end.

(** [s.strip()] *)
Definition strip (s : string) : string := rstrip (lstrip s).

(** [sub in s] *)
Fixpoint contains (sub s : string) : bool :=
  prefix sub s ||
  match s with
  | EmptyString => false
  | String _ s' => contains sub s'
  end.

(** [s.split(sep)] for a non-empty [sep] (Python raises ValueError on an empty
    one; main.py only passes non-empty literals). The scan goes left to right;
    at a match the current part ends and the next [length sep - 1] characters
    are skipped, so matches do not overlap. The head of the result is the part
    being read. *)
Fixpoint split_go (sep : string) (skip : nat) (s : string) : list string :=
  match s with
  | EmptyString => [EmptyString]
  | String c s' =>
      match skip with
      | S k => split_go sep k s'
      | O =>
          if prefix sep s then EmptyString :: split_go sep (String.length sep - 1) s'
          else match split_go sep 0 s' with
               | part :: parts => String c part :: parts
               | [] => [String c EmptyString]
               end
      end
  end.

Definition split (sep s : string) : list string := split_go sep 0 s.

(** [s[n:]] *)
Fixpoint drop (n : nat) (s : string) : string :=
  match n, s with
  | O, _ => s
  | S _, EmptyString => EmptyString
  | S k, String _ s' => drop k s'
  end.

(** The text of [s] before the first occurrence of [sep]; all of [s] when
    [sep] does not occur. Used to state what [split] returns. *)
Fixpoint text_before (sep s : string) : string :=
  match s with
  | EmptyString => EmptyString
  | String c s' => if prefix sep s then EmptyString else String c (text_before sep s')
  end.

(** The text of [s] after the first occurrence of [sep]; empty when [sep]
    does not occur. *)
Fixpoint text_after (sep s : string) : string :=
  match s with
  | EmptyString => EmptyString
  | String _ s' => if prefix sep s then drop (String.length sep) s else text_after sep s'
  end.

(** Every character of [s] is white space. *)
Fixpoint all_space (s : string) : bool :=
  match s with
  | EmptyString => true
  | String c s' => isspace c && all_space s'
  end.

(** [sep] occurs in [s] at offset [String.length pre], and nowhere before. *)
Definition first_occurrence (sep s pre post : string) : Prop :=
  s = pre ++ sep ++ post /\
  forall pre' post', s = pre' ++ sep ++ post' -> String.length pre <= String.length pre'.

End PyStr.

Import PyStr.

(** ** The syntax trees of Python's [ast] module, as far as imports go *)

Module Ast.

(** [ast.alias]: one imported name, as in [import name as asname]. *)
Record alias := { name : string; asname : option string }.

(** A node of the tree. [Import] and [ImportFrom] are the two classes that
    research_node tests for; [Other] is a node of any other class (Module,
    FunctionDef, If, Expr, ...) with its child nodes in the order in which
    [ast.iter_child_nodes] yields them. *)
#[local] Set Warnings "-register-all".
Inductive node :=
| Import (names : list alias)
| ImportFrom (module : option string) (names : list alias) (level : nat)
| Alias (a : alias)
| Other (children : list node).

(** [ast.iter_child_nodes(n)] *)
Definition iter_child_nodes (n : node) : list node :=
  match n with
  | Import names => map Alias names
  | ImportFrom _ names _ => map Alias names
  | Alias _ => []
  | Other children => children
  end.

Fixpoint size (n : node) : nat :=
  match n with
  | Import names => S (List.length names)
  | ImportFrom _ names _ => S (List.length names)
  | Alias _ => 1
  | Other children => S (list_sum (map size children))
  end.

Definition queue_size (todo : list node) : nat := list_sum (map size todo).

(** The loop of [ast.walk]: a queue of nodes still to visit; the node at the
    front is taken, its children join the queue at the back, and the node is
    yielded. *)
Equations? walk_queue (todo : list node) : list node by wf (queue_size todo) lt :=
  walk_queue [] := [];
  walk_queue (n :: todo) := n :: walk_queue (todo ++ iter_child_nodes n)%list.
Proof.
  clear walk_queue. unfold queue_size. rewrite map_app, list_sum_app.
  change (list_sum (map size (n :: todo))) with (size n + list_sum (map size todo)).
  enough (list_sum (map size (iter_child_nodes n)) < size n) by lia.
  destruct n as [names|m names l|a|children]; cbn [iter_child_nodes size].
  - rewrite map_map. cbn [size]. induction names; simpl in *; lia.
  - rewrite map_map. cbn [size]. induction names; simpl in *; lia.
  - simpl. lia.
  - lia.
Qed.

(** [ast.walk(tree)] *)
Definition walk (tree : node) : list node := walk_queue [tree].

End Ast.

Import Ast.

(** ** The workflow of main.py *)

Module Workflow.

(** [CodeState], with every key present as in the initial state of
    run_documentation_workflow. *)
Record CodeState := {
  original_code : string;
  documented_code : string;
  has_documentation : bool;
  libraries_used : list string;
  test_results : list string;
  issues_found : list string;
  current_step : string
}.

(** The [content] of the last message of an agent: a [str], or a value of
    another type, which the model holds as what [str()] returns on it. *)
Inductive content :=
| Text (s : string)
| NonText (rendering : string).

Definition double_quote : ascii := "034"%char.
Definition newline : string := String "010"%char EmptyString.
Definition triple_double_quote : string :=
  String double_quote (String double_quote (String double_quote EmptyString)).
Definition triple_single_quote : string := "'''".
Definition fence_python : string := "```python".
Definition fence : string := "```".

(** *** research_node *)

Section Research.

(** [ast.parse]: the tree of a source text, [None] when it raises. *)
Variable parse : string -> option node.

(** [node.module or ""] *)
Definition module_or_empty (module : option string) : string :=
  match module with
  | Some m => m
  | None => EmptyString
  end.

(** The body of [for node in ast.walk(tree)]. *)
Definition visit (libraries : list string) (n : node) : list string :=
  match n with
  | Import names =>
      fold_left (fun libs a => (libs ++ [name a])%list) names libraries
  | ImportFrom module names _ =>
      let from_module := module_or_empty module in
      fold_left (fun libs a => (libs ++ [(from_module ++ "." ++ name a)%string])%list)
        names libraries
  | _ => libraries
  end.

Definition collect_imports (tree : node) : list string :=
  fold_left visit (walk tree) [].

(** Extract libraries using AST: [libraries] starts empty, and stays so when
    [ast.parse] raises ([except: pass]). *)
Definition extract_libraries (code : string) : list string :=
  match parse code with
  | Some tree => collect_imports tree
  | None => []
  end.

(** Check if code has documentation. *)
Definition has_docs (code : string) : bool :=
  contains triple_double_quote code
  || contains triple_single_quote code
  || contains "#" code.

Definition research_node (state : CodeState) : CodeState :=
  {| original_code := original_code state;
     documented_code := documented_code state;
     has_documentation := has_docs (original_code state);
     libraries_used := extract_libraries (original_code state);
     test_results := test_results state;
     issues_found := issues_found state;
     current_step := "researched" |}.

End Research.

(** *** document_node *)

(** [text.split(marker)[1].split("```")[0].strip()]; [None] is IndexError. *)
Definition fenced_block (marker text : string) : option string :=
  match nth_error (split marker text) 1 with
  | Some after =>
      match nth_error (split fence after) 0 with
      | Some block => Some (strip block)
      | None => None
      end
  | None => None
  end.

(** Clean up the response to extract just the code. *)
Definition strip_code_fence (documented_code : string) : option string :=
  if contains fence_python documented_code then fenced_block fence_python documented_code
  else if contains fence documented_code then fenced_block fence documented_code
  else Some documented_code.

(** [reply] is [result.content], a text. *)
Definition document_node (state : CodeState) (reply : string) : option CodeState :=
  match strip_code_fence reply with
  | Some documented =>
      Some {| original_code := original_code state;
              documented_code := documented;
              has_documentation := has_documentation state;
              libraries_used := libraries_used state;
              test_results := test_results state;
              issues_found := issues_found state;
              current_step := "documented" |}
  | None => None
  end.

(** *** analyze_node *)

Definition keywords : list string :=
  ["error"; "issue"; "problem"; "fail"; "exception"; "warning"].

Definition no_results : string :=
  "Analysis completed but no detailed results captured".
Definition no_issues : string :=
  "No critical issues identified during analysis".

(** [x or y] on texts, as in [state.get('documented_code') or state['original_code']]. *)
Definition or_else (x y : string) : string :=
  if (x =? EmptyString) then y else x.

Definition code_to_analyze (state : CodeState) : string :=
  or_else (documented_code state) (original_code state).

(** The body of [for line in lines]. *)
Definition scan_line (issues : list string) (line : string) : list string :=
  let line := strip line in
  if existsb (fun keyword => contains keyword (lower line)) keywords then
    if negb (line =? EmptyString) && (10 <? String.length line)%nat
    then (issues ++ [line])%list
    else issues
  else issues.

(** [test_results] and [issues] when the fallbacks are reached. *)
Definition parse_response (response_text : content) : list string * list string :=
  match response_text with
  | Text s => (([] ++ [s])%list, fold_left scan_line (split newline s) [])
  | NonText rendering => (([] ++ [rendering])%list, [])
  end.

(** [if not xs: xs.append(fallback)] *)
Definition or_fallback (xs : list string) (fallback : string) : list string :=
  match xs with
  | [] => [fallback]
  | _ => xs
  end.

Definition analyze_node (state : CodeState) (response_text : content) : CodeState :=
  let '(results, issues) := parse_response response_text in
  {| original_code := original_code state;
     documented_code := documented_code state;
     has_documentation := has_documentation state;
     libraries_used := libraries_used state;
     test_results := or_fallback results no_results;
     issues_found := or_fallback issues no_issues;
     current_step := "analyzed" |}.

(** *** should_skip_documentation *)

(** The conditional edge: the choice, and the state it was given, which it
    updates in place before it returns "analyze". *)
Definition should_skip_documentation (state : CodeState) : string * CodeState :=
  if has_documentation state then
    ("analyze",
     {| original_code := original_code state;
        documented_code := original_code state;
        has_documentation := has_documentation state;
        libraries_used := libraries_used state;
        test_results := test_results state;
        issues_found := issues_found state;
        current_step := current_step state |})
  else ("document", state).

(** *** final_node *)

Definition code_to_save (state : CodeState) : string :=
  or_else (documented_code state) (original_code state).

(** The two files are written on the way; the state only changes its step. *)
Definition final_node (state : CodeState) : CodeState :=
  {| original_code := original_code state;
     documented_code := documented_code state;
     has_documentation := has_documentation state;
     libraries_used := libraries_used state;
     test_results := test_results state;
     issues_found := issues_found state;
     current_step := "completed" |}.

(** *** create_workflow and run_documentation_workflow *)

Inductive graph_node := Research | Document | Analyze | Final | END.

(** The mapping of the conditional edges out of "research". *)
Definition path_map (choice : string) : option graph_node :=
  if (choice =? "document") then Some Document
  else if (choice =? "analyze") then Some Analyze
  else None.

(** What the language model answers in one run. *)
Record replies := { document_reply : string; analyze_reply : content }.

Definition initial_state (code_input : string) : CodeState :=
  {| original_code := code_input;
     documented_code := EmptyString;
     has_documentation := false;
     libraries_used := [];
     test_results := [];
     issues_found := [];
     current_step := "start" |}.

Definition config : Type := graph_node * CodeState.

Section Graph.

Variable parse : string -> option node.
Variable model : replies.

(** One node of the graph runs on the state and the edge out of it is taken,
    in a run where each call to the language model returns ([model] holds
    what it returns). The graph keeps what a node returns; the function of
    the conditional edge is given a copy of that state, so what
    should_skip_documentation writes into its argument is not kept: the next
    node reads the state as research_node returned it. *)
Definition exec (c : config) : option config :=
  let '(at_node, state) := c in
  match at_node with
  | Research =>
      let state := research_node parse state in
      let '(choice, _) := should_skip_documentation state in
      match path_map choice with
      | Some target => Some (target, state)
      | None => None
      end
  | Document =>
      match document_node state (document_reply model) with
      | Some state => Some (Analyze, state)
      | None => None
      end
  | Analyze => Some (Final, analyze_node state (analyze_reply model))
  | Final => Some (END, final_node state)
  | END => None
  end.

Fixpoint run_from (fuel : nat) (c : config) : list config :=
  c :: match fuel with
       | O => []
       | S k => match exec c with
                | Some c' => run_from k c'
                | None => []
                end
       end.

(** The configurations of a run, the first at "research" on the initial
    state; the graph has no path of more than four edges. *)
Definition run_documentation_workflow (code_input : string) : list config :=
  run_from 4 (Research, initial_state code_input).

End Graph.

(** *** Runs in which a call to the language model may raise *)

(** A call to an agent or to the model: it returns, or it raises; nothing in
    the nodes catches what it raises. *)
Inductive call (A : Type) :=
| Returns (a : A)
| Raises.
Arguments Returns {A} a.
Arguments Raises {A}.

(** The three calls of a run: [research_agent.invoke] of research_node, whose
    result is not used, [model.invoke] of document_node and
    [analyzer_agent.invoke] of analyze_node, with the content they return. *)
Record collaborators := {
  research_call : call unit;
  document_call : call string;
  analyze_call : call content
}.

Inductive progress :=
| Next (c : config)
| Finished
| Aborted.

Section GraphCalls.

Variable parse : string -> option node.
Variable calls : collaborators.

(** As [exec], with the calls: a call that raises aborts the run. *)
Definition exec_calls (c : config) : progress :=
  let '(at_node, state) := c in
  match at_node with
  | Research =>
      match research_call calls with
      | Raises => Aborted
      | Returns _ =>
          let state := research_node parse state in
          let '(choice, _) := should_skip_documentation state in
          match path_map choice with
          | Some target => Next (target, state)
          | None => Aborted
          end
      end
  | Document =>
      match document_call calls with
      | Raises => Aborted
      | Returns reply =>
          match document_node state reply with
          | Some state => Next (Analyze, state)
          | None => Aborted
          end
      end
  | Analyze =>
      match analyze_call calls with
      | Raises => Aborted
      | Returns reply => Next (Final, analyze_node state reply)
      end
  | Final => Next (END, final_node state)
  | END => Finished
  end.

(** The configurations gone through, and whether the run was aborted. *)
Fixpoint run_calls (fuel : nat) (c : config) : list config * bool :=
  match fuel with
  | O => ([c], false)
  | S k =>
      match exec_calls c with
      | Next c' => let '(cs, aborted) := run_calls k c' in (c :: cs, aborted)
      | Finished => ([c], false)
      | Aborted => ([c], true)
      end
  end.

Definition run_with_calls (code_input : string) : list config * bool :=
  run_calls 5 (Research, initial_state code_input).

(** Every call that the run reaches returns. *)
Definition calls_return (code_input : string) : bool :=
  match research_call calls, analyze_call calls with
  | Returns _, Returns _ =>
      has_docs code_input
      || match document_call calls with Returns _ => true | Raises => false end
  | _, _ => false
  end.

End GraphCalls.

(** The order of the values of [current_step]. *)
Definition step_index (step : string) : option nat :=
  if (step =? "start") then Some 0
  else if (step =? "researched") then Some 1
  else if (step =? "documented") then Some 2
  else if (step =? "analyzed") then Some 3
  else if (step =? "completed") then Some 4
  else None.

Definition step_before (a b : string) : Prop :=
  exists i j, step_index a = Some i /\ step_index b = Some j /\ i < j.

End Workflow.

Import Workflow.

(** ** Notions used to state the properties *)

Module Spec.

(** A stripped line counts as an issue: one of the keywords occurs in its
    lower-case form and it has more than 10 characters. *)
Definition qualifies (line : string) : bool :=
  existsb (fun keyword => contains keyword (lower line)) keywords
  && (10 <? String.length line)%nat.

(** What one node of the tree adds to the list of libraries. *)
Definition entries (n : node) : list string :=
  match n with
  | Import names => map name names
  | ImportFrom module names _ =>
      map (fun a => module_or_empty module ++ "." ++ name a) names
  | _ => []
  end.

(** The text of a reply: the reply itself, or its rendering by [str()]. *)
Definition reply_text (reply : content) : string :=
  match reply with
  | Text s => s
  | NonText rendering => rendering
  end.

(** The statement [import name] or [import name as asname]. *)
Definition plain_import (a : alias) : node := Import [a].

End Spec.

Import Spec.

(** ** Sources, trees and replies used as examples *)

Module Examples.

Definition alias_of (s : string) : alias := {| name := s; asname := None |}.

Definition commented_code : string := "x = 1 # one".
Definition invalid_code : string := "def (".
Definition from_then_import_code : string :=
  "from a import b" ++ newline ++ "import os" ++ newline.
Definition imports_first_code : string :=
  "import os" ++ newline ++ "import sys" ++ newline
  ++ "def f():" ++ newline ++ "    import json" ++ newline
  ++ "from . import x" ++ newline.

(** Module(body=[Assign(targets=[Name(ctx=Store())], value=Constant())]) *)
Definition commented_tree : node :=
  Other [Other [Other [Other []]; Other []]].

(** Module(body=[ImportFrom(module='a', names=[alias('b')], level=0),
                 Import(names=[alias('os')])]) *)
Definition from_then_import : node :=
  Other [ImportFrom (Some "a") [alias_of "b"] 0; Import [alias_of "os"]].

(** Module(body=[Import os, Import sys,
                 FunctionDef(args=arguments(), body=[Import json]),
                 ImportFrom(module=None, names=[alias('x')], level=1)]) *)
Definition imports_first : node :=
  Other [Import [alias_of "os"]; Import [alias_of "sys"];
         Other [Other []; Import [alias_of "json"]];
         ImportFrom None [alias_of "x"] 1].

(** What [ast.parse] returns on the sources above; it raises on
    [invalid_code], and the table has no other source. *)
Definition example_parse (code : string) : option node :=
  if (code =? commented_code) then Some commented_tree
  else if (code =? from_then_import_code) then Some from_then_import
  else if (code =? imports_first_code) then Some imports_first
  else None.

Definition fenced_reply : string :=
  "Here it is:" ++ newline ++ "```python" ++ newline
  ++ "def f(): pass" ++ newline ++ "```" ++ newline ++ "Done.".

Definition failing_report : string :=
  "Ran 3 scenarios." ++ newline
  ++ "  ZeroDivisionError: division by zero (an exception)  " ++ newline
  ++ "fail" ++ newline ++ "Everything else behaved.".

Definition example_replies : replies :=
  {| document_reply := fenced_reply;
     analyze_reply := Text "All tests passed." |}.

End Examples.

Import Examples.

(** ** The tools of the agents *)

Module Tools.

(** One result of the search tool: a dict whose keys 'url' and 'content' may
    be missing; their values are texts. *)
Record search_result := {
  result_url : option string;
  result_content : option string
}.

(** [d.get(key, default)] *)
Definition get_or (value : option string) (default : string) : string :=
  match value with
  | Some v => v
  | None => default
  end.

Definition search_query (library_name : string) : string :=
  library_name ++ " python library documentation examples".

(** The body of [for result in results]: the text appended. *)
Definition format_result (result : search_result) : string :=
  let content := substring 0 200 (get_or (result_content result) "No content") in
  "Source: " ++ get_or (result_url result) "N/A" ++ newline
  ++ "Content: " ++ content ++ "...".

Definition results_separator : string := newline ++ "---" ++ newline.

(** [search_library_info]; [search] is the search tool's [invoke]. *)
Definition search_library_info (search : string -> list search_result)
    (library_name : string) : string :=
  let results := search (search_query library_name) in
  let formatted_results :=
    fold_left (fun formatted result => (formatted ++ [format_result result])%list)
      results [] in
  String.concat results_separator formatted_results.

(** What [python_tool.invoke(code)] does: it returns its output, or raises
    an [Exception] whose [str()] is [message], or raises something that is
    not an [Exception] (KeyboardInterrupt, SystemExit). *)
Inductive tool_outcome :=
| Returned (output : string)
| RaisedException (message : string)
| RaisedOther.

Definition execution_successful : string := "Execution successful:" ++ newline.
Definition execution_failed : string := "Execution failed:" ++ newline.

(** [execute_code]; [None] when the exception is not caught. *)
Definition execute_code (python_tool : string -> tool_outcome) (code : string)
    : option string :=
  match python_tool code with
  | Returned result => Some (execution_successful ++ result)
  | RaisedException e => Some (execution_failed ++ e)
  | RaisedOther => None
  end.

End Tools.

Import Tools.

(** ** The files written by final_node *)

Module Files.

(** [str(i)] for a natural number. *)
Definition str_of_nat (i : nat) : string :=
  NilEmpty.string_of_uint (Nat.to_uint i).

(** [enumerate(xs, start)] *)
Fixpoint enumerate (xs : list string) (start : nat) : list (nat * string) :=
  match xs with
  | [] => []
  | x :: xs' => (start, x) :: enumerate xs' (S start)
  end.

Definition libraries_lines (state : CodeState) : list string :=
  match libraries_used state with
  | [] => ["- No libraries identified" ++ newline]
  | libs => map (fun lib => "- " ++ lib ++ newline) libs
  end.

Definition issue_line (entry : nat * string) : string :=
  let '(i, issue) := entry in str_of_nat i ++ ". " ++ issue ++ newline.

Definition issues_lines (state : CodeState) : list string :=
  match issues_found state with
  | [] => ["- No critical issues identified" ++ newline]
  | issues => map issue_line (enumerate issues 1)
  end.

Definition test_block (entry : nat * string) : string :=
  let '(i, result) := entry in
  "### Test " ++ str_of_nat i ++ newline ++ result ++ newline ++ newline.

Definition tests_lines (state : CodeState) : list string :=
  match test_results state with
  | [] => ["- No test results captured" ++ newline]
  | results => map test_block (enumerate results 1)
  end.

Definition report_title (timestamp : string) : list string :=
  ["# Code Analysis Results" ++ newline;
   "Generated on: " ++ timestamp ++ newline ++ newline;
   "## Libraries Used" ++ newline].

Definition issues_title : list string :=
  [newline; "## Issues and Recommendations" ++ newline].

Definition tests_title : list string :=
  [newline; "## Test Results and I/O Behavior" ++ newline].

Definition usage_guidelines : list string :=
  [newline;
   "## Usage Guidelines" ++ newline;
   "1. Review the documented code in code.py" ++ newline;
   "2. Address any issues or recommendations listed above" ++ newline;
   "3. Test the code with various input scenarios" ++ newline;
   "4. Validate functionality before production use" ++ newline].

(** [save_analysis_results]: the texts given to [f.write], in order, when
    the file can be opened and written; [timestamp] is the formatted time. *)
Definition save_analysis_results (timestamp : string) (state : CodeState)
    : list string :=
  (report_title timestamp
   ++ libraries_lines state
   ++ issues_title
   ++ issues_lines state
   ++ tests_title
   ++ tests_lines state
   ++ usage_guidelines)%list.

(** What final_node gives to save_documented_code and save_analysis_results:
    the text of code.py and the writes of analysis.txt. *)
Definition final_node_files (timestamp : string) (state : CodeState)
    : string * list string :=
  (code_to_save state, save_analysis_results timestamp state).

End Files.

Import Files.

(** ** process_list of code.py, on integers *)

Module Sample.

Local Open Scope Z_scope.

(** [for i in range(len(items)): total += items[i] * 2]; [None] is the
    IndexError of [items[i]]. *)
Definition process_list (items : list Z) : option Z :=
  fold_left
    (fun total i =>
       match total, nth_error items i with
       | Some t, Some item => Some (t + item * 2)
       | _, _ => None
       end)
    (seq 0 (List.length items)) (Some 0).

End Sample.

(** ** More notions used to state the properties *)

Module Spec2.

(** The nodes of a tree, each once, a node before its descendants. *)
Fixpoint preorder (n : node) : list node :=
  n :: match n with
       | Import names => map Alias names
       | ImportFrom _ names _ => map Alias names
       | Alias _ => []
       | Other children => flat_map preorder children
       end.

(** [s] holds no backtick. *)
Definition no_backtick (s : string) : bool := negb (contains "`" s).

(** [s] does not start with a backtick. *)
Definition no_leading_backtick (s : string) : bool := negb (prefix "`" s).

(** The first and the last character of [s] are not white space. *)
Definition first_char_ok (s : string) : bool :=
  match s with
  | EmptyString => true
  | String c _ => negb (isspace c)
  end.

Fixpoint last_char_ok (s : string) : bool :=
  match s with
  | EmptyString => true
  | String c EmptyString => negb (isspace c)
  | String _ s' => last_char_ok s'
  end.

Definition trimmed (s : string) : bool := first_char_ok s && last_char_ok s.

End Spec2.

Import Spec2.

(** ** The environment and its keys *)

Module Environ.

(** [os.environ]: the value of each variable that is set. *)
Definition environ : Type := string -> option string.

(** [os.environ[key] = value] *)
Definition set_key (env : environ) (key value : string) : environ :=
  fun k => if (k =? key) then Some value else env k.

Definition google_api_key : string := "GOOGLE_API_KEY".
Definition tavily_api_key : string := "TAVILY_API_KEY".
Definition google_prompt : string := "Enter your Google API Key: ".
Definition tavily_prompt : string := "Enter your Tavily API Key: ".

(** [if key not in os.environ: os.environ[key] = getpass.getpass(prompt)];
    the prompts shown so far are kept beside the environment. *)
Definition ensure_key (getpass : string -> string) (key prompt : string)
    (st : environ * list string) : environ * list string :=
  let '(env, shown) := st in
  match env key with
  | Some _ => (env, shown)
  | None => (set_key env key (getpass prompt), (shown ++ [prompt])%list)
  end.

(** [setup_environment]: the environment it leaves and the prompts it
    showed; [getpass] gives what is typed at a prompt, a text that
    [os.environ] accepts. *)
Definition setup_environment (getpass : string -> string) (env : environ)
    : environ * list string :=
  ensure_key getpass tavily_api_key tavily_prompt
    (ensure_key getpass google_api_key google_prompt (env, [])).

(** The key that [create_model] reads, [os.environ["GOOGLE_API_KEY"]];
    [None] is KeyError. *)
Definition create_model_key (env : environ) : option string :=
  env google_api_key.

End Environ.

Import Environ.

(** ** Facts on strings *)

Section StringFacts.

Lemma append_assoc (a b c : string) : (a ++ b) ++ c = a ++ (b ++ c).
Proof. induction a as [|x a IH]; simpl; [reflexivity | now rewrite IH]. Qed.

Lemma append_empty_r (a : string) : a ++ EmptyString = a.
Proof. induction a as [|x a IH]; simpl; [reflexivity | now rewrite IH]. Qed.

Lemma length_append (a b : string) :
  String.length (a ++ b) = String.length a + String.length b.
Proof. induction a as [|x a IH]; simpl; [reflexivity | now rewrite IH]. Qed.

Lemma prefix_iff (p s : string) :
  prefix p s = true <-> exists t, s = p ++ t.
Proof.
  revert s; induction p as [|x p IH]; intros s.
  - split; [intros _; exists s; reflexivity | intros _; destruct s; reflexivity].
  - destruct s as [|y s]; simpl.
    + split; [discriminate | intros [t H]; discriminate].
    + destruct (Ascii.ascii_dec x y) as [->|Hxy].
      * rewrite IH. split; intros [t H]; exists t; [now rewrite H | now inversion H].
      * split; [discriminate | intros [t H]; inversion H; congruence].
Qed.

Lemma prefix_append (p a b : string) :
  prefix p a = true -> prefix p (a ++ b) = true.
Proof.
  rewrite !prefix_iff. intros [t ->]. exists (t ++ b). apply append_assoc.
Qed.

Lemma prefix_empty_false (p : string) :
  p <> EmptyString -> prefix p EmptyString = false.
Proof. destruct p; [contradiction | reflexivity]. Qed.

Lemma contains_iff (sub s : string) :
  contains sub s = true <-> exists pre post, s = pre ++ sub ++ post.
Proof.
  induction s as [|c s IH]; cbn [contains].
  - rewrite orb_false_r, prefix_iff. split.
    + intros [t H]. exists EmptyString, t. exact H.
    + intros [pre [post H]]. destruct pre; simpl in H; [now exists post | discriminate].
  - rewrite orb_true_iff, IH, prefix_iff. split.
    + intros [[t H] | [pre [post H]]].
      * exists EmptyString, t. exact H.
      * exists (String c pre), post. simpl. now rewrite H.
    + intros [pre [post H]]. destruct pre as [|x pre]; simpl in H.
      * left. now exists post.
      * right. exists pre, post. now inversion H.
Qed.

(** An occurrence inside a part of [s] is an occurrence in [s]. *)
Lemma contains_inside (sub l m r : string) :
  contains sub m = true -> contains sub (l ++ m ++ r) = true.
Proof.
  rewrite !contains_iff. intros [pre [post ->]].
  exists (l ++ pre), (post ++ r). now rewrite !append_assoc.
Qed.

(** An occurrence of a longer marker holds one of each marker it starts with. *)
Lemma contains_longer (sub ext s : string) :
  contains (sub ++ ext) s = true -> contains sub s = true.
Proof.
  rewrite !contains_iff. intros [pre [post ->]].
  exists pre, (ext ++ post). now rewrite !append_assoc.
Qed.

End StringFacts.

(** ** Facts on [split], [text_before] and [text_after] *)

Section SplitFacts.

Variable sep : string.
Hypothesis sep_nonempty : sep <> EmptyString.

Lemma drop_append (a b : string) : drop (String.length a) (a ++ b) = b.
Proof. induction a as [|x a IH]; simpl; [now destruct b | exact IH]. Qed.

Lemma split_go_skip (k : nat) (s : string) :
  split_go sep k s = split_go sep 0 (drop k s).
Proof.
  revert k; induction s as [|c s IH]; intros [|k]; try reflexivity.
  cbn [split_go drop]. apply IH.
Qed.

Lemma contains_empty : contains sep EmptyString = false.
Proof. cbn [contains]. now rewrite prefix_empty_false. Qed.

(** [split] cuts at the first occurrence and goes on with the text after it. *)
Lemma split_unfold (s : string) :
  split sep s =
  text_before sep s ::
  (if contains sep s then split sep (text_after sep s) else []).
Proof.
  unfold split. induction s as [|c s IH].
  - rewrite contains_empty. reflexivity.
  - cbn [split_go text_before text_after contains].
    destruct (prefix sep (String c s)) eqn:Hp; cbn [orb].
    + f_equal. rewrite split_go_skip. f_equal.
      destruct sep as [|x p]; [contradiction|].
      cbn [String.length drop Nat.sub]. now rewrite Nat.sub_0_r.
    + rewrite IH. reflexivity.
Qed.

Lemma split_first (s : string) :
  nth_error (split sep s) 0 = Some (text_before sep s).
Proof. now rewrite split_unfold. Qed.

Lemma split_second (s : string) :
  contains sep s = true ->
  nth_error (split sep s) 1 = Some (text_before sep (text_after sep s)).
Proof.
  intros H. rewrite split_unfold, H. cbn [nth_error]. apply split_first.
Qed.

(** [s] is the text before the first occurrence, the separator and the text
    after it. *)
Lemma text_before_after (s : string) :
  contains sep s = true -> s = text_before sep s ++ sep ++ text_after sep s.
Proof.
  induction s as [|c s IH]; cbn [contains text_before text_after].
  - rewrite prefix_empty_false by assumption. discriminate.
  - destruct (prefix sep (String c s)) eqn:Hp; cbn [orb].
    + intros _. apply prefix_iff in Hp. destruct Hp as [t Ht].
      rewrite Ht at 2. rewrite drop_append. exact Ht.
    + intros H. cbn [append]. f_equal. now apply IH.
Qed.

Lemma text_before_none (s : string) :
  contains sep s = false -> text_before sep s = s.
Proof.
  induction s as [|c s IH]; cbn [contains text_before]; [reflexivity|].
  destruct (prefix sep (String c s)); cbn [orb]; [discriminate|].
  intros H. f_equal. now apply IH.
Qed.

Lemma text_before_is_prefix (s : string) :
  exists rest, s = text_before sep s ++ rest.
Proof.
  destruct (contains sep s) eqn:H.
  - eexists. now apply text_before_after.
  - exists EmptyString. now rewrite append_empty_r, text_before_none.
Qed.

(** No occurrence of the separator lies within the text before the first one. *)
Lemma text_before_free (s : string) :
  contains sep (text_before sep s) = false.
Proof.
  induction s as [|c s IH]; cbn [text_before]; [apply contains_empty|].
  destruct (prefix sep (String c s)) eqn:Hp; [apply contains_empty|].
  cbn [contains]. rewrite IH, orb_false_r.
  destruct (prefix sep (String c (text_before sep s))) eqn:Hq; [|reflexivity].
  destruct (text_before_is_prefix s) as [rest Hrest].
  apply (prefix_append _ _ rest) in Hq. cbn [append] in Hq.
  rewrite <- Hrest in Hq. congruence.
Qed.

Lemma text_before_minimal (s pre post : string) :
  s = pre ++ sep ++ post ->
  String.length (text_before sep s) <= String.length pre.
Proof.
  revert pre; induction s as [|c s IH]; intros pre H; cbn [text_before].
  - apply Nat.le_0_l.
  - destruct (prefix sep (String c s)) eqn:Hp; [apply Nat.le_0_l|].
    destruct pre as [|x pre]; cbn [append] in H.
    + assert (prefix sep (String c s) = true) by (apply prefix_iff; now exists post).
      congruence.
    + inversion H; subst. cbn [String.length]. apply le_n_S. now apply IH.
Qed.

Lemma first_occurrence_text (s : string) :
  contains sep s = true ->
  first_occurrence sep s (text_before sep s) (text_after sep s).
Proof.
  intros H. split; [now apply text_before_after|].
  intros pre post Hs. now apply (text_before_minimal s pre post).
Qed.

End SplitFacts.

(** ** Facts on [strip] and [lower] *)

Section StripFacts.

Lemma lstrip_spec (s : string) :
  exists l, s = l ++ lstrip s /\ all_space l = true.
Proof.
  induction s as [|c s [l [IH Hl]]]; cbn [lstrip].
  - now exists EmptyString.
  - destruct (isspace c) eqn:Hc.
    + exists (String c l). cbn [append all_space]. now rewrite <- IH, Hc, Hl.
    + now exists EmptyString.
Qed.

Lemma rstrip_spec (s : string) :
  exists r, s = rstrip s ++ r /\ all_space r = true.
Proof.
  induction s as [|c s [r [IH Hr]]]; cbn [rstrip].
  - now exists EmptyString.
  - destruct (rstrip s) as [|x t] eqn:Ht.
    + cbn [append] in IH. subst r. destruct (isspace c) eqn:Hc.
      * exists (String c s). cbn [append all_space]. now rewrite Hc, Hr.
      * now exists s.
    + exists r. cbn [append] in *. now rewrite <- IH.
Qed.

(** [strip] only removes white space, at both ends. *)
Lemma strip_spec (s : string) :
  exists l r, s = l ++ strip s ++ r /\ all_space l = true /\ all_space r = true.
Proof.
  unfold strip. destruct (lstrip_spec s) as [l [Hl Hls]].
  destruct (rstrip_spec (lstrip s)) as [r [Hr Hrs]].
  exists l, r. now rewrite <- Hr.
Qed.

Lemma strip_keeps_free (sub s : string) :
  contains sub s = false -> contains sub (strip s) = false.
Proof.
  intros H. destruct (contains sub (strip s)) eqn:Hc; [|reflexivity].
  destruct (strip_spec s) as [l [r [Hs _]]].
  apply (contains_inside sub l _ r) in Hc. rewrite <- Hs in Hc. congruence.
Qed.

End StripFacts.

(** ** The code-fence clean-up of document_node *)

Section CodeFence.

Lemma fence_nonempty : fence <> EmptyString.
Proof. discriminate. Qed.

Lemma fence_python_nonempty : fence_python <> EmptyString.
Proof. discriminate. Qed.

(** A text with a tagged fence has a fence. *)
Lemma contains_fence_python (s : string) :
  contains fence_python s = true -> contains fence s = true.
Proof. apply (contains_longer fence "python"). Qed.

Lemma fenced_block_spec (marker text : string) :
  marker <> EmptyString ->
  contains marker text = true ->
  fenced_block marker text =
  Some (strip (text_before fence (text_before marker (text_after marker text)))).
Proof.
  intros Hm Hc. unfold fenced_block.
  rewrite (split_second marker Hm text Hc).
  now rewrite (split_first fence fence_nonempty).
Qed.

Lemma strip_code_fence_cases (reply : string) :
  strip_code_fence reply =
  Some (if contains fence_python reply
        then strip (text_before fence
                      (text_before fence_python (text_after fence_python reply)))
        else if contains fence reply
             then strip (text_before fence (text_after fence reply))
             else reply).
Proof.
  unfold strip_code_fence.
  destruct (contains fence_python reply) eqn:Hp.
  - now apply fenced_block_spec.
  - destruct (contains fence reply) eqn:Hf; [|reflexivity].
    rewrite (fenced_block_spec fence reply fence_nonempty Hf).
    rewrite (text_before_none fence
               (text_before fence (text_after fence reply)));
      [reflexivity | apply text_before_free, fence_nonempty].
Qed.

(** The clean-up never fails: the indexing stays within the parts. *)
Lemma strip_code_fence_total (reply : string) :
  exists cleaned, strip_code_fence reply = Some cleaned.
Proof. eexists. apply strip_code_fence_cases. Qed.

Lemma strip_code_fence_fence_free (s : string) :
  contains fence s = false -> strip_code_fence s = Some s.
Proof.
  intros H. unfold strip_code_fence. rewrite H.
  destruct (contains fence_python s) eqn:Hp; [|reflexivity].
  apply contains_fence_python in Hp. congruence.
Qed.

Lemma strip_code_fence_output_free (reply cleaned : string) :
  strip_code_fence reply = Some cleaned -> contains fence cleaned = false.
Proof.
  rewrite strip_code_fence_cases. intros H. injection H as <-.
  destruct (contains fence_python reply).
  - apply strip_keeps_free, text_before_free, fence_nonempty.
  - destruct (contains fence reply) eqn:Hf; [|exact Hf].
    apply strip_keeps_free, text_before_free, fence_nonempty.
Qed.

End CodeFence.

Section CodeFenceClaims.

(** C4, as the code has it. When the reply holds "```python", the result is
    the text after the first "```python" up to the next "```python" (or the
    end of the reply), cut at the first "```" lying within that text, and
    stripped of white space at both ends; when the reply holds "```" but no
    "```python", the result is the text between the first "```" and the next
    one (or the end of the reply), stripped; otherwise the reply is returned
    as it is. The indexing never fails. In a reply with a single "```python"
    the result is the stripped text between that fence and the next "```". *)
Theorem strip_code_fence_spec (reply : string) :
  strip_code_fence reply =
  Some (if contains fence_python reply
        then strip (text_before fence
                      (text_before fence_python (text_after fence_python reply)))
        else if contains fence reply
             then strip (text_before fence (text_after fence reply))
             else reply)
  /\ (contains fence_python reply = true ->
      first_occurrence fence_python reply
        (text_before fence_python reply) (text_after fence_python reply)
      /\ (contains fence_python (text_after fence_python reply) = false ->
          strip_code_fence reply =
          Some (strip (text_before fence (text_after fence_python reply))))).
Proof.
  split; [apply strip_code_fence_cases|].
  intros Hp. split.
  - apply first_occurrence_text; [apply fence_python_nonempty | exact Hp].
  - intros Hone. rewrite strip_code_fence_cases, Hp.
    now rewrite (text_before_none fence_python (text_after fence_python reply)).
Qed.

Lemma strip_code_fence_spec_witness :
  strip_code_fence fenced_reply = Some "def f(): pass".
Proof.
  exact (proj2 (proj2 (strip_code_fence_spec fenced_reply) eq_refl) eq_refl).
Defined.

(** C4 as stated fails where the next "```" overlaps a second "```python":
    the text after the first fence is cut at that second fence first, so the
    "```" that starts one character before it is not found. *)
Lemma strip_code_fence_overlapping_fences :
  contains fence_python "```pythonX````python" = true
  /\ strip_code_fence "```pythonX````python" = Some "X`"
  /\ strip (text_before fence (text_after fence_python "```pythonX````python")) = "X".
Proof. repeat split. Qed.

(** C8. A text without "```" is returned as it is, and what the clean-up
    returns has no "```": cleaning up twice is cleaning up once. *)
Theorem strip_code_fence_idempotent (reply : string) :
  (contains fence reply = false -> strip_code_fence reply = Some reply)
  /\ exists cleaned,
       strip_code_fence reply = Some cleaned
       /\ contains fence cleaned = false
       /\ strip_code_fence cleaned = Some cleaned.
Proof.
  split; [apply strip_code_fence_fence_free|].
  destruct (strip_code_fence_total reply) as [cleaned H].
  exists cleaned. split; [exact H|].
  pose proof (strip_code_fence_output_free reply cleaned H) as Hfree.
  split; [exact Hfree | now apply strip_code_fence_fence_free].
Qed.

Lemma strip_code_fence_idempotent_witness :
  strip_code_fence "x = 1" = Some "x = 1".
Proof. exact (proj1 (strip_code_fence_idempotent "x = 1") eq_refl). Defined.

End CodeFenceClaims.

(** ** The results of analyze_node *)

Section Analyze.

Lemma empty_eqb_length (s : string) :
  negb (s =? EmptyString) && (10 <? String.length s)%nat
  = (10 <? String.length s)%nat.
Proof. destruct s; reflexivity. Qed.

Lemma scan_line_qualifies (issues : list string) (line : string) :
  scan_line issues line
  = (issues ++ (if qualifies (strip line) then [strip line] else []))%list.
Proof.
  unfold scan_line, qualifies. rewrite empty_eqb_length.
  destruct (existsb _ keywords); cbn [andb].
  - destruct (10 <? String.length (strip line))%nat; [reflexivity|].
    now rewrite app_nil_r.
  - now rewrite app_nil_r.
Qed.

(** The loop over the lines keeps the stripped lines that qualify, in order. *)
Lemma scan_lines_filter (lines issues : list string) :
  fold_left scan_line lines issues
  = (issues ++ filter qualifies (map strip lines))%list.
Proof.
  revert issues; induction lines as [|line lines IH]; intros issues; cbn [fold_left map filter].
  - now rewrite app_nil_r.
  - rewrite IH, scan_line_qualifies.
    destruct (qualifies (strip line)); now rewrite <- app_assoc.
Qed.

Lemma qualifies_iff (line : string) :
  qualifies line = true <->
  (exists keyword, In keyword keywords
     /\ exists pre post, lower line = pre ++ keyword ++ post)
  /\ 10 < String.length line.
Proof.
  unfold qualifies. rewrite andb_true_iff, existsb_exists, Nat.ltb_lt.
  split; intros [[k [Hin Hk]] Hlen]; (split; [exists k; split; [exact Hin|] | exact Hlen]).
  - now apply contains_iff.
  - now apply contains_iff.
Qed.

(** C1, as the code has it. For a text report, the issues are the stripped
    lines, in order, in whose lower-case form one of the six keywords occurs
    and that have more than 10 characters; when no line is such, the list is
    the single entry "No critical issues identified during analysis", which
    ends without a full stop. *)
Theorem issues_found_spec (state : CodeState) (report : string) :
  issues_found (analyze_node state (Text report)) =
  match filter qualifies (map strip (split newline report)) with
  | [] => ["No critical issues identified during analysis"]
  | hits => hits
  end
  /\ forall line, qualifies line = true <->
       (exists keyword,
           In keyword ["error"; "issue"; "problem"; "fail"; "exception"; "warning"]
           /\ exists pre post, lower line = pre ++ keyword ++ post)
       /\ 10 < String.length line.
Proof.
  split; [|apply qualifies_iff].
  cbn [analyze_node parse_response issues_found].
  rewrite scan_lines_filter. cbn [app]. unfold or_fallback, no_issues.
  now destruct (filter qualifies (map strip (split newline report))).
Qed.

Lemma issues_found_spec_witness :
  issues_found (analyze_node (initial_state commented_code) (Text failing_report))
  = ["ZeroDivisionError: division by zero (an exception)"].
Proof.
  exact (proj1 (issues_found_spec (initial_state commented_code) failing_report)).
Defined.

(** C1 as stated fails on the entry given when no line qualifies: the code's
    text has no full stop at its end. *)
Lemma issues_found_sentinel_no_full_stop :
  issues_found (analyze_node (initial_state "x = 1") (Text "All tests passed."))
  = ["No critical issues identified during analysis"]
  /\ issues_found (analyze_node (initial_state "x = 1") (Text "All tests passed."))
     <> ["No critical issues identified during analysis."].
Proof. split; [reflexivity | discriminate]. Qed.

(** C10. Whatever the reply, one entry is appended to the results before the
    emptiness test: the reply when it is a text, its rendering otherwise. The
    test then fails, the fallback leaves the list as it is, and the results
    are that single entry; they are the fallback's text only when the reply
    itself reads so. *)
Theorem test_results_fallback_unreachable (state : CodeState) (reply : content) :
  fst (parse_response reply) = [reply_text reply]
  /\ or_fallback (fst (parse_response reply)) no_results = fst (parse_response reply)
  /\ test_results (analyze_node state reply) = [reply_text reply]
  /\ List.length (test_results (analyze_node state reply)) = 1
  /\ (test_results (analyze_node state reply) = [no_results] ->
      reply_text reply = no_results).
Proof.
  destruct reply as [s|r]; cbn; repeat split; intros H; now inversion H.
Qed.

Lemma test_results_fallback_unreachable_witness :
  test_results (analyze_node (initial_state commented_code) (Text EmptyString))
  = [EmptyString].
Proof.
  exact (proj1 (proj2 (proj2 (test_results_fallback_unreachable
                                (initial_state commented_code) (Text EmptyString))))).
Defined.

(** C5, as the code has it. A report that is a non-empty text is recorded
    whole as the single entry of the results; a report that is not a text is
    recorded as its rendering by [str()], again as the single entry. *)
Theorem test_results_recorded (state : CodeState) (reply : content) :
  reply <> Text EmptyString ->
  test_results (analyze_node state reply) = [reply_text reply].
Proof. intros _. destruct reply; reflexivity. Qed.

Lemma test_results_recorded_witness :
  test_results (analyze_node (initial_state "x = 1") (NonText "[]")) = ["[]"].
Proof.
  apply (test_results_recorded (initial_state "x = 1") (NonText "[]")).
  discriminate.
Defined.

(** C5 as stated fails for a report that is not a text, and for the empty
    text: the results hold the rendering, or the empty text, and not the
    fallback's text. *)
Lemma test_results_no_fallback :
  test_results (analyze_node (initial_state "x = 1") (NonText "[]")) = ["[]"]
  /\ test_results (analyze_node (initial_state "x = 1") (Text EmptyString)) = [EmptyString]
  /\ ["[]"] <> ["Analysis completed but no detailed results captured"]
  /\ [EmptyString] <> ["Analysis completed but no detailed results captured"].
Proof. repeat split; discriminate. Qed.

End Analyze.

(** ** The tree walk and the libraries of research_node *)

Section Walk.

(** The queue is visited from the front, and the children of its nodes come
    after all of it: the walk goes level by level. *)
Lemma walk_queue_app (q r : list node) :
  walk_queue (q ++ r)%list
  = (q ++ walk_queue (r ++ flat_map iter_child_nodes q))%list.
Proof.
  revert r; induction q as [|n q IH]; intros r; cbn [app flat_map].
  - now rewrite app_nil_r.
  - rewrite walk_queue_equation_2. f_equal.
    rewrite <- app_assoc, IH. now rewrite <- app_assoc.
Qed.

Lemma walk_queue_level (q : list node) :
  walk_queue q = (q ++ walk_queue (flat_map iter_child_nodes q))%list.
Proof.
  rewrite <- (app_nil_r q) at 1. rewrite walk_queue_app. reflexivity.
Qed.

Lemma walk_other (children : list node) :
  walk (Other children)
  = Other children
    :: (children ++ walk_queue (flat_map iter_child_nodes children))%list.
Proof.
  unfold walk. rewrite walk_queue_equation_2. cbn [app iter_child_nodes].
  now rewrite walk_queue_level at 1.
Qed.

Lemma append_each (f : alias -> string) (names : list alias) (libs : list string) :
  fold_left (fun libs a => (libs ++ [f a])%list) names libs
  = (libs ++ map f names)%list.
Proof.
  revert libs; induction names as [|a names IH]; intros libs; cbn [fold_left map].
  - now rewrite app_nil_r.
  - rewrite IH. now rewrite <- app_assoc.
Qed.

Lemma visit_entries (libs : list string) (n : node) :
  visit libs n = (libs ++ entries n)%list.
Proof.
  destruct n as [names|m names l|a|children]; cbn [visit entries];
    try apply append_each; now rewrite app_nil_r.
Qed.

Lemma visit_all (nodes : list node) (libs : list string) :
  fold_left visit nodes libs = (libs ++ flat_map entries nodes)%list.
Proof.
  revert libs; induction nodes as [|n nodes IH]; intros libs; cbn [fold_left flat_map].
  - now rewrite app_nil_r.
  - rewrite IH, visit_entries. now rewrite <- app_assoc.
Qed.

Lemma collect_imports_walk (tree : node) :
  collect_imports tree = flat_map entries (walk tree).
Proof. unfold collect_imports. now rewrite visit_all. Qed.

Lemma collect_imports_other (children : list node) :
  collect_imports (Other children)
  = (flat_map entries children
     ++ flat_map entries (walk_queue (flat_map iter_child_nodes children)))%list.
Proof.
  rewrite collect_imports_walk, walk_other. cbn [flat_map entries app].
  apply flat_map_app.
Qed.

Lemma entries_plain_imports (imports : list alias) :
  flat_map entries (map plain_import imports) = map name imports.
Proof.
  induction imports as [|a imports IH]; cbn [map flat_map entries plain_import app];
    [reflexivity | now rewrite IH].
Qed.

End Walk.

Section ResearchClaims.

Variable parse : string -> option node.

Lemma alias_nodes_silent (imports : list alias) :
  flat_map entries (map Alias imports) = []
  /\ flat_map iter_child_nodes (map Alias imports) = [].
Proof. induction imports as [|a imports [IH1 IH2]]; cbn; auto. Qed.

Lemma collect_imports_leading (imports : list alias) (rest : list node) :
  collect_imports (Other (map plain_import imports ++ rest))
  = (map name imports ++ collect_imports (Other rest))%list.
Proof.
  rewrite !collect_imports_other, !flat_map_app, entries_plain_imports.
  rewrite <- app_assoc. do 2 f_equal.
  replace (flat_map iter_child_nodes (map plain_import imports))
    with (map Alias imports).
  - destruct (alias_nodes_silent imports) as [He Hc].
    rewrite walk_queue_app, flat_map_app, He, Hc, app_nil_r. reflexivity.
  - induction imports as [|a imports IH]; cbn [map flat_map iter_child_nodes plain_import app];
      [reflexivity | now rewrite <- IH].
Qed.

(** C2. research_node sets has_documentation exactly when the code holds
    three double quotes in a row, or three single quotes in a row, or the
    character [#], at any place. *)
Theorem has_documentation_iff (state : CodeState) :
  has_documentation (research_node parse state) = true <->
  (exists pre post, original_code state = pre ++ triple_double_quote ++ post)
  \/ (exists pre post, original_code state = pre ++ "'''" ++ post)
  \/ (exists pre post, original_code state = pre ++ "#" ++ post).
Proof.
  cbn [research_node has_documentation]. unfold has_docs.
  rewrite !orb_true_iff, !contains_iff. tauto.
Qed.

(** C6. When [ast.parse] raises on the code, research_node still returns: its
    list of libraries is empty, and the other fields are set as usual. *)
Theorem extract_libraries_invalid (state : CodeState) :
  parse (original_code state) = None ->
  libraries_used (research_node parse state) = []
  /\ has_documentation (research_node parse state) = has_docs (original_code state)
  /\ current_step (research_node parse state) = "researched".
Proof.
  intros H. cbn [research_node libraries_used has_documentation current_step].
  unfold extract_libraries. now rewrite H.
Qed.

(** C7, as the code has it. The libraries are what the nodes of the tree
    add, in the order of the walk, which goes level by level, and nothing is
    removed: an import adds the name of each of its aliases, a from-import
    adds module, a dot and the name for each (the module empty when there is
    none). So the entries of the top-level statements, imports and
    from-imports alike, come first and in source order, before those of
    nested statements; and when the code starts with N imports of one name
    each, the list starts with those N names in source order. *)
Theorem extract_libraries_order (code : string) (tree : node) :
  parse code = Some tree ->
  extract_libraries parse code = flat_map entries (walk tree)
  /\ (forall body, tree = Other body ->
        extract_libraries parse code
        = (flat_map entries body
           ++ flat_map entries (walk_queue (flat_map iter_child_nodes body)))%list)
  /\ (forall imports rest, tree = Other (map plain_import imports ++ rest) ->
        extract_libraries parse code
        = (map name imports ++ collect_imports (Other rest))%list).
Proof.
  intros H. unfold extract_libraries. rewrite H. split; [|split].
  - apply collect_imports_walk.
  - intros body ->. apply collect_imports_other.
  - intros imports rest ->. apply collect_imports_leading.
Qed.

End ResearchClaims.

Section ResearchExamples.

Lemma has_documentation_iff_witness :
  has_documentation (research_node example_parse (initial_state commented_code)) = true.
Proof.
  apply (proj2 (has_documentation_iff example_parse (initial_state commented_code))).
  right; right. exists "x = 1 ", " one". reflexivity.
Defined.

Lemma extract_libraries_invalid_witness :
  libraries_used (research_node example_parse (initial_state invalid_code)) = []
  /\ has_documentation (research_node example_parse (initial_state invalid_code))
     = has_docs invalid_code
  /\ current_step (research_node example_parse (initial_state invalid_code))
     = "researched".
Proof.
  apply (extract_libraries_invalid example_parse (initial_state invalid_code)).
  reflexivity.
Defined.

Lemma extract_libraries_order_witness :
  extract_libraries example_parse imports_first_code
  = (map name [alias_of "os"; alias_of "sys"]
     ++ collect_imports
          (Other [Other [Other []; Import [alias_of "json"]];
                  ImportFrom None [alias_of "x"] 1]))%list.
Proof.
  apply (proj2 (proj2 (extract_libraries_order example_parse
                         imports_first_code imports_first eq_refl))
           [alias_of "os"; alias_of "sys"]).
  reflexivity.
Defined.

(** C7 as stated fails when a from-import stands before an import at top
    level: its entry comes first. *)
Lemma extract_libraries_from_import_first :
  extract_libraries example_parse from_then_import_code = ["a.b"; "os"]
  /\ ~ exists tail, ["a.b"; "os"] = (["os"] ++ tail)%list.
Proof. split; [reflexivity | intros [tail H]; discriminate]. Qed.

End ResearchExamples.

(** ** The runs of the workflow *)

Section Runs.

Variable parse : string -> option node.
Variable model : replies.

Lemma analyze_node_step (state : CodeState) (reply : content) :
  current_step (analyze_node state reply) = "analyzed".
Proof. now destruct reply. Qed.

Lemma exec_research (state : CodeState) :
  exec parse model (Research, state)
  = Some (if has_docs (original_code state) then Analyze else Document,
          research_node parse state).
Proof.
  cbn [exec]. unfold should_skip_documentation.
  cbn [research_node has_documentation].
  now destruct (has_docs (original_code state)).
Qed.

Lemma exec_document (state : CodeState) :
  exists documented,
    strip_code_fence (document_reply model) = Some documented
    /\ exec parse model (Document, state)
       = Some (Analyze,
               {| original_code := original_code state;
                  documented_code := documented;
                  has_documentation := has_documentation state;
                  libraries_used := libraries_used state;
                  test_results := test_results state;
                  issues_found := issues_found state;
                  current_step := "documented" |}).
Proof.
  destruct (strip_code_fence_total (document_reply model)) as [documented H].
  exists documented. split; [exact H|].
  cbn [exec]. unfold document_node. now rewrite H.
Qed.

(** The run when the code is found documented: "document" is left out. *)
Lemma run_skipping (code : string) :
  has_docs code = true ->
  exists s2,
    s2 = research_node parse (initial_state code)
    /\ run_documentation_workflow parse model code
       = [(Research, initial_state code);
          (Analyze, s2);
          (Final, analyze_node s2 (analyze_reply model));
          (END, final_node (analyze_node s2 (analyze_reply model)))].
Proof.
  intros H. eexists. split; [reflexivity|].
  unfold run_documentation_workflow. cbn [run_from].
  rewrite exec_research. cbn [original_code initial_state]. rewrite H.
  reflexivity.
Qed.

(** The run when the code is found undocumented: all four nodes. *)
Lemma run_documenting (code : string) :
  has_docs code = false ->
  exists s1 s2,
    s1 = research_node parse (initial_state code)
    /\ document_node s1 (document_reply model) = Some s2
    /\ run_documentation_workflow parse model code
       = [(Research, initial_state code);
          (Document, s1);
          (Analyze, s2);
          (Final, analyze_node s2 (analyze_reply model));
          (END, final_node (analyze_node s2 (analyze_reply model)))].
Proof.
  intros H.
  destruct (exec_document (research_node parse (initial_state code)))
    as [documented [Hd He]].
  eexists. eexists. split; [reflexivity|]. split.
  - unfold document_node. rewrite Hd. reflexivity.
  - unfold run_documentation_workflow. cbn [run_from].
    rewrite exec_research. cbn [original_code initial_state]. rewrite H.
    rewrite He. reflexivity.
Qed.

Lemma has_docs_nonempty (code : string) :
  has_docs code = true -> code <> EmptyString.
Proof. intros H ->. discriminate. Qed.

End Runs.

Section RunClaims.

Variable parse : string -> option node.
Variable model : replies.

(** C3, what the code does. should_skip_documentation returns "analyze" or
    "document", one edge of the graph each. With has_documentation set it
    returns "analyze" and writes original_code into the documented_code of
    the state it was given; the run then goes research, analyze, final, so
    document never runs. But the graph does not keep what the edge function
    writes: analyze_node reads the state as research_node returned it, with
    an empty documented_code, which differs from original_code. With
    has_documentation unset it returns "document" and the state is as it
    was; the run goes through document, which starts from an empty
    documented_code. *)
Theorem router_update_not_kept (state : CodeState) (code : string) :
  (fst (should_skip_documentation state) = "analyze"
   \/ fst (should_skip_documentation state) = "document")
  /\ (has_documentation state = true ->
      fst (should_skip_documentation state) = "analyze"
      /\ path_map (fst (should_skip_documentation state)) = Some Analyze
      /\ documented_code (snd (should_skip_documentation state)) = original_code state
      /\ original_code (snd (should_skip_documentation state)) = original_code state)
  /\ (has_documentation state = false ->
      should_skip_documentation state = ("document", state)
      /\ path_map (fst (should_skip_documentation state)) = Some Document)
  /\ (has_documentation (research_node parse (initial_state code)) = true ->
      map fst (run_documentation_workflow parse model code)
      = [Research; Analyze; Final; END]
      /\ forall s, In (Analyze, s) (run_documentation_workflow parse model code) ->
           documented_code s = EmptyString
           /\ original_code s = code
           /\ documented_code s <> original_code s)
  /\ (has_documentation (research_node parse (initial_state code)) = false ->
      map fst (run_documentation_workflow parse model code)
      = [Research; Document; Analyze; Final; END]
      /\ forall s, In (Document, s) (run_documentation_workflow parse model code) ->
           documented_code s = EmptyString).
Proof.
  unfold should_skip_documentation.
  split; [destruct (has_documentation state); auto|].
  split; [intros ->; cbn; auto|].
  split; [intros ->; cbn; auto|].
  cbn [research_node has_documentation original_code initial_state].
  split; intros H.
  - destruct (run_skipping parse model code H) as [s2 [Hs2 ->]].
    split; [reflexivity|].
    intros s [Hin|[Hin|[Hin|[Hin|[]]]]]; try discriminate Hin.
    injection Hin as <-. rewrite Hs2.
    cbn [research_node documented_code original_code initial_state].
    split; [reflexivity|]. split; [reflexivity|].
    intros E. now apply (has_docs_nonempty code H).
  - destruct (run_documenting parse model code H) as [s1 [s2 [Hs1 [_ ->]]]].
    split; [reflexivity|].
    intros s [Hin|[Hin|[Hin|[Hin|[Hin|[]]]]]]; try discriminate Hin.
    injection Hin as <-. now rewrite Hs1.
Qed.

(** C9. A run starts with current_step "start" and ends at END with
    "completed"; from each configuration to the next, the node that runs
    returns a state whose current_step comes strictly later in the order
    start, researched, documented, analyzed, completed. *)
Theorem current_step_advances (code : string) :
  (exists s, nth_error (run_documentation_workflow parse model code) 0
             = Some (Research, s) /\ current_step s = "start")
  /\ (exists s, last (run_documentation_workflow parse model code) (Research, initial_state code)
                = (END, s) /\ current_step s = "completed")
  /\ forall i c c',
       nth_error (run_documentation_workflow parse model code) i = Some c ->
       nth_error (run_documentation_workflow parse model code) (S i) = Some c' ->
       exec parse model c = Some c'
       /\ step_before (current_step (snd c)) (current_step (snd c')).
Proof.
  assert (Hlt : forall a b i j, step_index a = Some i -> step_index b = Some j ->
                                i < j -> step_before a b)
    by (intros a b i j Ha Hb Hij; exists i, j; auto).
  destruct (has_docs code) eqn:H.
  - destruct (run_skipping parse model code H) as [s2 [Hs2 Hrun]].
    assert (Hstep : current_step s2 = "researched") by now subst s2.
    assert (He : exec parse model (Research, initial_state code) = Some (Analyze, s2)).
    { rewrite exec_research, <- Hs2. cbn [original_code initial_state]. now rewrite H. }
    rewrite Hrun. split; [eexists; split; reflexivity|].
    split; [eexists; split; reflexivity|].
    intros [|[|[|[|i]]]] c c' Hc Hc'; cbn [nth_error] in Hc, Hc';
      try discriminate Hc'; try (destruct i; discriminate Hc);
      injection Hc as <-; injection Hc' as <-.
    + split; [exact He|]. cbn [snd]. rewrite Hstep.
      apply (Hlt _ _ 0 1); [reflexivity | reflexivity | lia].
    + split; [reflexivity|]. cbn [snd]. rewrite Hstep, analyze_node_step.
      apply (Hlt _ _ 1 3); [reflexivity | reflexivity | lia].
    + split; [reflexivity|]. cbn [snd]. rewrite analyze_node_step.
      apply (Hlt _ _ 3 4); [reflexivity | reflexivity | lia].
  - destruct (run_documenting parse model code H) as [s1 [s2 [Hs1 [Hs2 Hrun]]]].
    assert (Hstep : current_step s2 = "documented").
    { unfold document_node in Hs2. destruct (strip_code_fence _); [|discriminate].
      now injection Hs2 as <-. }
    assert (He : exec parse model (Research, initial_state code) = Some (Document, s1)).
    { rewrite exec_research. cbn [original_code initial_state]. rewrite H.
      now subst s1. }
    rewrite Hrun. split; [eexists; split; reflexivity|].
    split; [eexists; split; reflexivity|].
    intros [|[|[|[|[|i]]]]] c c' Hc Hc'; cbn [nth_error] in Hc, Hc';
      try discriminate Hc'; try (destruct i; discriminate Hc);
      injection Hc as <-; injection Hc' as <-.
    + split; [exact He|]. subst s1. apply (Hlt _ _ 0 1); [reflexivity | reflexivity | lia].
    + split; [cbn [exec]; now rewrite Hs2|]. cbn [snd]. rewrite Hstep. subst s1.
      apply (Hlt _ _ 1 2); [reflexivity | reflexivity | lia].
    + split; [reflexivity|]. cbn [snd]. rewrite Hstep, analyze_node_step.
      apply (Hlt _ _ 2 3); [reflexivity | reflexivity | lia].
    + split; [reflexivity|]. cbn [snd]. rewrite analyze_node_step.
      apply (Hlt _ _ 3 4); [reflexivity | reflexivity | lia].
Qed.

End RunClaims.

Section RunExamples.

Lemma router_update_not_kept_witness :
  map fst (run_documentation_workflow example_parse example_replies commented_code)
  = [Research; Analyze; Final; END]
  /\ forall s,
       In (Analyze, s)
          (run_documentation_workflow example_parse example_replies commented_code) ->
       documented_code s = EmptyString
       /\ original_code s = commented_code
       /\ documented_code s <> original_code s.
Proof.
  apply (router_update_not_kept example_parse example_replies
           (initial_state commented_code) commented_code).
  reflexivity.
Defined.

Lemma current_step_advances_witness :
  exec example_parse example_replies (Research, initial_state invalid_code)
  = Some (Document, research_node example_parse (initial_state invalid_code))
  /\ step_before "start" "researched".
Proof.
  apply (proj2 (proj2 (current_step_advances example_parse example_replies invalid_code))
           0 (Research, initial_state invalid_code)
           (Document, research_node example_parse (initial_state invalid_code)));
    reflexivity.
Defined.

End RunExamples.

(** ** More on [split]: its parts and [join] *)

Section SplitParts.

Variable sep : string.
Hypothesis sep_nonempty : sep <> EmptyString.

Lemma text_after_shorter (s : string) :
  contains sep s = true -> String.length (text_after sep s) < String.length s.
Proof.
  intros H. rewrite (text_before_after sep sep_nonempty s H) at 2.
  rewrite !length_append. destruct sep; [contradiction | simpl; lia].
Qed.

(** Reasoning on [split] goes part by part: a text without the separator is
    its own single part; otherwise the first part is followed by the parts
    of the text after the first separator. *)
Lemma split_parts_ind (P : string -> list string -> Prop) :
  (forall s, contains sep s = false -> P s [s]) ->
  (forall s, contains sep s = true ->
     P (text_after sep s) (split sep (text_after sep s)) ->
     P s (text_before sep s :: split sep (text_after sep s))) ->
  forall s, P s (split sep s).
Proof.
  intros Hone Hmore s.
  remember (String.length s) as n eqn:Hn. revert s Hn.
  induction n as [n IH] using lt_wf_ind. intros s Hn.
  rewrite (split_unfold sep sep_nonempty s).
  destruct (contains sep s) eqn:Hc.
  - apply Hmore; [exact Hc|].
    apply (IH (String.length (text_after sep s))); [|reflexivity].
    subst n. now apply text_after_shorter.
  - rewrite text_before_none by exact Hc. now apply Hone.
Qed.

Lemma split_nonempty (s : string) : split sep s <> [].
Proof. rewrite (split_unfold sep sep_nonempty). discriminate. Qed.

Lemma split_parts_free (s part : string) :
  In part (split sep s) -> contains sep part = false.
Proof.
  revert part. apply (split_parts_ind (fun s parts =>
    forall part, In part parts -> contains sep part = false)); clear s.
  - intros s H part [<-|[]]. exact H.
  - intros s _ IH part [<-|Hin]; [now apply text_before_free | now apply IH].
Qed.

Lemma split_parts_inside (s part : string) :
  In part (split sep s) -> exists a b, s = a ++ part ++ b.
Proof.
  revert part. apply (split_parts_ind (fun s parts =>
    forall part, In part parts -> exists a b, s = a ++ part ++ b)); clear s.
  - intros s _ part [<-|[]]. exists EmptyString, EmptyString.
    now rewrite append_empty_r.
  - intros s H IH part [<-|Hin].
    + exists EmptyString, (sep ++ text_after sep s).
      now apply text_before_after.
    + destruct (IH part Hin) as [a [b Hab]].
      exists (text_before sep s ++ sep ++ a), b.
      rewrite (text_before_after sep sep_nonempty s H) at 1.
      rewrite Hab at 1. now rewrite !append_assoc.
Qed.

Lemma concat_cons (x : string) (xs : list string) :
  xs <> [] -> String.concat sep (x :: xs) = x ++ sep ++ String.concat sep xs.
Proof. destruct xs; [contradiction | reflexivity]. Qed.

Lemma join_split (s : string) : String.concat sep (split sep s) = s.
Proof.
  apply (split_parts_ind (fun s parts => String.concat sep parts = s)); clear s.
  - reflexivity.
  - intros s H IH. rewrite concat_cons by apply split_nonempty.
    rewrite IH. symmetry. now apply text_before_after.
Qed.

End SplitParts.

(** ** More on [strip] and [lower] *)

Section Trimmed.

Lemma first_char_lstrip (s : string) : first_char_ok (lstrip s) = true.
Proof.
  induction s as [|c s IH]; cbn [lstrip]; [reflexivity|].
  destruct (isspace c) eqn:Hc; [exact IH|]. cbn [first_char_ok]. now rewrite Hc.
Qed.

Lemma first_char_rstrip (s : string) :
  first_char_ok s = true -> first_char_ok (rstrip s) = true.
Proof.
  destruct s as [|c s]; [reflexivity|]. cbn [first_char_ok rstrip]. intros H.
  destruct (rstrip s); [|exact H].
  destruct (isspace c) eqn:Hc; [reflexivity|]. cbn [first_char_ok]. now rewrite Hc.
Qed.

Lemma last_char_rstrip (s : string) : last_char_ok (rstrip s) = true.
Proof.
  induction s as [|c s IH]; cbn [rstrip]; [reflexivity|].
  destruct (rstrip s) as [|x t] eqn:Ht.
  - destruct (isspace c) eqn:Hc; cbn [last_char_ok]; [reflexivity | now rewrite Hc].
  - exact IH.
Qed.

Lemma strip_trimmed (s : string) : trimmed (strip s) = true.
Proof.
  unfold trimmed, strip.
  now rewrite first_char_rstrip, last_char_rstrip by apply first_char_lstrip.
Qed.

(** [rstrip] stops at a character that is not white space. *)
Lemma rstrip_keep (x : string) (c : ascii) (y : string) :
  isspace c = false -> rstrip (x ++ String c y) = x ++ String c (rstrip y).
Proof.
  intros Hc. induction x as [|d x IH]; cbn [append rstrip].
  - destruct (rstrip y); [now rewrite Hc | reflexivity].
  - rewrite IH. now destruct x.
Qed.

Lemma last_char_split (w : string) :
  w <> EmptyString -> last_char_ok w = true ->
  exists w0 c, w = w0 ++ String c EmptyString /\ isspace c = false.
Proof.
  induction w as [|c w IH]; [contradiction|]. intros _ H.
  destruct w as [|d w].
  - exists EmptyString, c. split; [reflexivity|].
    cbn [last_char_ok] in H. now destruct (isspace c).
  - destruct IH as [w0 [e [Hw He]]]; [discriminate | exact H |].
    exists (String c w0), e. split; [|exact He]. cbn [append]. now rewrite <- Hw.
Qed.

(** [strip] keeps a piece of the text whose ends are not white space. *)
Lemma strip_keeps_inner (a w b : string) :
  w <> EmptyString -> trimmed w = true ->
  exists a' b', strip (a ++ w ++ b) = a' ++ w ++ b'.
Proof.
  unfold trimmed. rewrite andb_true_iff. intros Hw [Hfirst Hlast].
  assert (Hl : exists a', lstrip (a ++ w ++ b) = a' ++ w ++ b).
  { induction a as [|c a [a' IH]]; cbn [append lstrip].
    - exists EmptyString. destruct w as [|c w]; [contradiction|].
      cbn [first_char_ok] in Hfirst. cbn [append lstrip].
      now destruct (isspace c).
    - destruct (isspace c); [now exists a' | now exists (String c a)]. }
  destruct Hl as [a' Hl].
  destruct (last_char_split w Hw Hlast) as [w0 [c [Hwc Hc]]].
  exists a', (rstrip b). unfold strip. rewrite Hl, Hwc.
  rewrite !append_assoc. cbn [append].
  rewrite <- append_assoc. rewrite (rstrip_keep _ c b Hc).
  now rewrite append_assoc.
Qed.

Lemma lower_append (a b : string) : lower (a ++ b) = lower a ++ lower b.
Proof. induction a as [|c a IH]; cbn [append lower]; [reflexivity | now rewrite IH]. Qed.

Lemma contains_lower_inside (keyword a w b : string) :
  contains keyword (lower w) = true ->
  contains keyword (lower (a ++ w ++ b)) = true.
Proof. rewrite !lower_append. apply contains_inside. Qed.

Lemma qualifies_inside (a w b : string) :
  qualifies w = true -> qualifies (a ++ w ++ b) = true.
Proof.
  unfold qualifies. rewrite !andb_true_iff, !existsb_exists, !Nat.ltb_lt.
  intros [[k [Hin Hk]] Hlen]. split.
  - exists k. split; [exact Hin | now apply contains_lower_inside].
  - rewrite !length_append. lia.
Qed.

End Trimmed.

(** ** Where a piece of a text lies among its lines *)

Section Lines.

Lemma append_eq_append (a b c d : string) :
  a ++ b = c ++ d ->
  exists m, (a = c ++ m /\ d = m ++ b) \/ (c = a ++ m /\ b = m ++ d).
Proof.
  revert c; induction a as [|x a IH]; intros c H; cbn [append] in H.
  - exists c. right. split; [reflexivity | exact H].
  - destruct c as [|y c]; cbn [append] in H.
    + exists (String x a). left. split; [reflexivity | now rewrite <- H].
    + inversion H as [[Hxy Hrest]]. destruct (IH c Hrest) as [m [[H1 H2]|[H1 H2]]].
      * exists m. left. split; [cbn [append]; now rewrite <- H1 | exact H2].
      * exists m. right. split; [cbn [append]; now rewrite <- H1 | exact H2].
Qed.

Lemma contains_first_char (c : ascii) (s : string) :
  contains (String c EmptyString) (String c s) = true.
Proof.
  apply contains_iff. exists EmptyString, s. reflexivity.
Qed.

(** A piece of the report without a newline lies within one line. *)
Lemma line_of_piece (w : string) :
  contains newline w = false ->
  forall report pre post, report = pre ++ w ++ post ->
  exists line a b, In line (split newline report) /\ line = a ++ w ++ b.
Proof.
  intros Hw report.
  assert (Hnl : newline <> EmptyString) by discriminate.
  apply (split_parts_ind newline Hnl (fun s parts =>
    forall pre post, s = pre ++ w ++ post ->
    exists line a b, In line parts /\ line = a ++ w ++ b)); clear report.
  - intros s _ pre post ->. exists (pre ++ w ++ post), pre, post.
    split; [now left | reflexivity].
  - intros s Hc IH pre post Hs.
    pose proof (text_before_after newline Hnl s Hc) as Hcut.
    rewrite Hs in Hcut at 1.
    destruct (append_eq_append _ _ _ _ Hcut) as [m [[Hpre Hrest]|[Htb Hrest]]].
    + (* the piece starts after the first line *)
      destruct m as [|c m]; cbn [append] in Hrest.
      * destruct w as [|c w].
        -- exists (text_before newline s), (text_before newline s), EmptyString.
           split; [now left | now rewrite append_empty_r].
        -- cbn [append] in Hrest. unfold newline in Hrest, Hw.
           inversion Hrest; subst c.
           rewrite (contains_first_char _ w) in Hw. discriminate.
      * unfold newline in Hrest. cbn [append] in Hrest. inversion Hrest as [[Hc' Hta]].
        destruct (IH m post Hta) as [line [a [b [Hin Hline]]]].
        exists line, a, b. split; [now right | exact Hline].
    + (* the piece starts within the first line *)
      symmetry in Hrest.
      destruct (append_eq_append _ _ _ _ Hrest) as [n [[Hm Hpost]|[Hw' Hnlta]]].
      * exists (text_before newline s), pre, n.
        split; [now left|]. now rewrite Htb, Hm.
      * destruct n as [|c n].
        -- rewrite append_empty_r in Hw'. subst m.
           exists (text_before newline s), pre, EmptyString.
           split; [now left|]. now rewrite Htb, append_empty_r.
        -- unfold newline in Hnlta. cbn [append] in Hnlta. inversion Hnlta; subst c.
           exfalso. subst w.
           assert (contains newline (m ++ newline ++ n) = true)
             by (apply contains_iff; now exists m, n).
           unfold newline in H, Hw. cbn [append] in H. congruence.
Qed.

End Lines.

(** ** The issues of analyze_node, entry by entry *)

Section Issues.

Lemma issues_found_text (state : CodeState) (report : string) :
  issues_found (analyze_node state (Text report))
  = or_fallback (filter qualifies (map strip (split newline report))) no_issues.
Proof.
  cbn [analyze_node parse_response issues_found]. now rewrite scan_lines_filter.
Qed.

Lemma newline_nonempty : newline <> EmptyString.
Proof. discriminate. Qed.

Lemma in_or_fallback (xs : list string) (fallback x : string) :
  In x (or_fallback xs fallback) -> x = fallback \/ In x xs.
Proof. destruct xs; cbn; intuition. Qed.

Lemma in_or_fallback_kept (xs : list string) (fallback x : string) :
  In x xs -> In x (or_fallback xs fallback).
Proof. destruct xs; [intros [] | auto]. Qed.

(** X2. Every entry of the issues of a text report is the fallback's text, or a
    line of the report without the white space at its ends: it qualifies,
    holds no newline, and stands in the report as it is. *)
Theorem issues_are_report_lines (state : CodeState) (report issue : string) :
  In issue (issues_found (analyze_node state (Text report))) ->
  issue = no_issues
  \/ (qualifies issue = true
      /\ trimmed issue = true
      /\ contains newline issue = false
      /\ exists before after, report = before ++ issue ++ after).
Proof.
  rewrite issues_found_text. intros H.
  apply in_or_fallback in H. destruct H as [H|H]; [now left | right].
  apply filter_In in H. destruct H as [Hin Hq].
  apply in_map_iff in Hin. destruct Hin as [line [<- Hline]].
  split; [exact Hq|]. split; [apply strip_trimmed|]. split.
  - apply strip_keeps_free. now apply (split_parts_free newline newline_nonempty report).
  - destruct (split_parts_inside newline newline_nonempty report line Hline)
      as [a [b Hab]].
    destruct (strip_spec line) as [l [r [Hl _]]].
    exists (a ++ l), (r ++ b). rewrite Hab at 1. rewrite Hl at 1.
    now rewrite !append_assoc.
Qed.

Lemma catch_piece (state : CodeState) (report piece : string) :
  (exists before after, report = before ++ piece ++ after) ->
  contains newline piece = false ->
  trimmed piece = true ->
  qualifies piece = true ->
  exists issue a b,
    In issue (issues_found (analyze_node state (Text report)))
    /\ issue = a ++ piece ++ b.
Proof.
  intros [pre [post Hrep]] Hnl Htrim Hq.
  assert (Hne : piece <> EmptyString).
  { intros ->. unfold qualifies in Hq. cbn [String.length] in Hq.
    rewrite andb_false_r in Hq. discriminate. }
  destruct (line_of_piece piece Hnl report pre post Hrep) as [line [a [b [Hin ->]]]].
  destruct (strip_keeps_inner a piece b Hne Htrim) as [a' [b' Hs]].
  exists (a' ++ piece ++ b'), a', b'. split; [|reflexivity].
  rewrite issues_found_text. apply in_or_fallback_kept.
  apply filter_In. split.
  - rewrite <- Hs. now apply in_map.
  - now apply qualifies_inside.
Qed.

Lemma issues_found_nonempty (state : CodeState) (reply : content) :
  issues_found (analyze_node state reply) <> [].
Proof.
  destruct reply as [report|rendering]; [|discriminate].
  rewrite issues_found_text. now destruct (filter _ _).
Qed.

(** X3. A piece of a text report that qualifies, holds no newline and has no
    white space at its ends is never missed: some entry of the issues holds
    it. *)
Theorem issues_catch_every_piece (state : CodeState) (report piece : string) :
  (exists before after, report = before ++ piece ++ after) ->
  contains newline piece = false ->
  trimmed piece = true ->
  qualifies piece = true ->
  exists issue a b,
    In issue (issues_found (analyze_node state (Text report)))
    /\ issue = a ++ piece ++ b.
Proof. apply catch_piece. Qed.

(** X4. The issues are never empty and never more than the lines of the reply;
    a reply that is not a text gives the fallback's text alone. *)
Theorem issues_found_bounds (state : CodeState) (reply : content) :
  1 <= List.length (issues_found (analyze_node state reply))
  /\ List.length (issues_found (analyze_node state reply))
     <= List.length (split newline (reply_text reply))
  /\ (forall rendering, reply = NonText rendering ->
        issues_found (analyze_node state reply) = [no_issues]).
Proof.
  assert (Hlines : forall s, 1 <= List.length (split newline s)).
  { intros s. pose proof (split_nonempty newline newline_nonempty s).
    destruct (split newline s); [contradiction | simpl; lia]. }
  destruct reply as [report|rendering].
  - rewrite issues_found_text. cbn [reply_text].
    pose proof (filter_length_le qualifies (map strip (split newline report))) as Hle.
    rewrite length_map in Hle. specialize (Hlines report).
    destruct (filter qualifies (map strip (split newline report))) as [|x xs];
      cbn [or_fallback List.length] in *;
      (split; [lia | split; [lia | intros r Hr; discriminate]]).
  - cbn [analyze_node parse_response issues_found or_fallback reply_text List.length].
    split; [lia | split; [apply Hlines | reflexivity]].
Qed.

(** X5. [sep.join(s.split(sep))] is [s], no part holds the separator, and there
    is at least one part. *)
Theorem split_join_round_trip (sep s : string) :
  sep <> EmptyString ->
  String.concat sep (split sep s) = s
  /\ (forall part, In part (split sep s) -> contains sep part = false)
  /\ 1 <= List.length (split sep s).
Proof.
  intros Hsep. split; [now apply join_split|].
  split; [intros part; now apply split_parts_free|].
  pose proof (split_nonempty sep Hsep s).
  destruct (split sep s); [contradiction | simpl; lia].
Qed.

End Issues.

(** ** Fenced blocks in texts without stray backticks *)

Section FencedBlocks.

Variable sep : string.
Hypothesis sep_backtick : prefix "`" sep = true.

Lemma sep_not_empty : sep <> EmptyString.
Proof. intros E. rewrite E in sep_backtick. discriminate. Qed.

Lemma prefix_needs_backtick (c : ascii) (s : string) :
  c <> "`"%char -> prefix sep (String c s) = false.
Proof.
  intros Hc. destruct (prefix sep (String c s)) eqn:Hp; [|reflexivity].
  apply prefix_iff in sep_backtick. destruct sep_backtick as [t Ht].
  apply prefix_iff in Hp. destruct Hp as [u Hu].
  rewrite Ht in Hu. cbn [append] in Hu. inversion Hu. congruence.
Qed.

Lemma no_backtick_cons (c : ascii) (x : string) :
  no_backtick (String c x) = true -> c <> "`"%char /\ no_backtick x = true.
Proof.
  unfold no_backtick. cbn [contains prefix].
  destruct (ascii_dec "`" c) as [<-|Hc]; [destruct x; discriminate|].
  cbn [orb]. intros H. split; [congruence | exact H].
Qed.

(** The first separator of a text that starts without backticks lies after
    that start. *)
Lemma skip_no_backtick (x z : string) :
  no_backtick x = true ->
  text_before sep (x ++ z) = x ++ text_before sep z
  /\ text_after sep (x ++ z) = text_after sep z
  /\ contains sep (x ++ z) = contains sep z.
Proof.
  induction x as [|c x IH]; intros H; [now cbn|].
  apply no_backtick_cons in H. destruct H as [Hc Hx].
  destruct (IH Hx) as [IH1 [IH2 IH3]].
  cbn [append text_before text_after contains].
  rewrite (prefix_needs_backtick c (x ++ z) Hc). cbn [orb].
  now rewrite IH1, IH2, IH3.
Qed.

Lemma at_separator (z : string) :
  text_before sep (sep ++ z) = EmptyString
  /\ text_after sep (sep ++ z) = z
  /\ contains sep (sep ++ z) = true.
Proof.
  assert (Hp : prefix sep (sep ++ z) = true) by (apply prefix_iff; now exists z).
  pose proof sep_not_empty as Hne.
  destruct (sep ++ z) as [|c s] eqn:E.
  - destruct sep; [contradiction | discriminate].
  - cbn [text_before text_after contains]. rewrite Hp. cbn [orb].
    split; [reflexivity|]. split; [|reflexivity].
    rewrite <- E. apply drop_append.
Qed.

Lemma no_backtick_free (x : string) :
  no_backtick x = true -> contains sep x = false.
Proof.
  intros H. destruct (skip_no_backtick x EmptyString H) as [_ [_ Hc]].
  rewrite append_empty_r in Hc. rewrite Hc. cbn [contains].
  now rewrite (prefix_empty_false sep sep_not_empty).
Qed.

(** A text without backticks, then the separator: the text is what stands
    before the first separator, and what follows the separator is what
    stands after it. *)
Lemma cut_after_no_backtick (x z : string) :
  no_backtick x = true ->
  text_before sep (x ++ sep ++ z) = x
  /\ text_after sep (x ++ sep ++ z) = z
  /\ contains sep (x ++ sep ++ z) = true.
Proof.
  intros H. destruct (skip_no_backtick x (sep ++ z) H) as [H1 [H2 H3]].
  destruct (at_separator z) as [A1 [A2 A3]].
  rewrite H1, H2, H3, A1, A2, A3. now rewrite append_empty_r.
Qed.

End FencedBlocks.

Section FenceRoundTrip.

Lemma fence_backtick : prefix "`" fence = true.
Proof. reflexivity. Qed.

Lemma fence_python_backtick : prefix "`" fence_python = true.
Proof. reflexivity. Qed.

(** After a closing fence that no backtick follows, the next tagged fence is
    that very fence or a later one that does not overlap it. *)
Lemma tagged_after_closing (outro : string) :
  no_leading_backtick outro = true ->
  text_before fence_python (fence ++ outro) = EmptyString
  \/ exists t, text_before fence_python (fence ++ outro) = fence ++ t.
Proof.
  intros H. unfold fence. cbn [append text_before].
  destruct (prefix fence_python (String "`" (String "`" (String "`" outro))));
    [now left | right].
  exists (text_before fence_python outro).
  assert (H2 : prefix fence_python (String "`" (String "`" outro)) = false).
  { destruct outro as [|c o]; [reflexivity|].
    unfold no_leading_backtick in H. cbn [prefix] in H.
    unfold fence_python. cbn [prefix].
    destruct (ascii_dec "`" "`"); [|reflexivity].
    destruct (ascii_dec "`" c); [|reflexivity].
    destruct o; discriminate. }
  assert (H1 : prefix fence_python (String "`" outro) = false).
  { destruct outro as [|c o]; [reflexivity|].
    unfold no_leading_backtick in H. cbn [prefix] in H.
    unfold fence_python. cbn [prefix].
    destruct (ascii_dec "`" "`"); [|reflexivity].
    destruct (ascii_dec "`" c); [|reflexivity].
    destruct o; discriminate. }
  cbn [text_before]. rewrite H2. cbn [text_before]. rewrite H1. reflexivity.
Qed.

(** X6. A code block wrapped in fences comes back. When the text before the
    block and the block itself hold no backtick, a reply made of the text,
    "```python", the block, "```" and a rest that does not start with a
    backtick is cleaned up to the block, stripped; so is the reply whose
    block is not closed; and so is the reply whose block is opened by a bare
    "```", as long as the reply holds no "```python". *)
Theorem fenced_code_round_trip (intro body outro : string) :
  no_backtick intro = true ->
  no_backtick body = true ->
  (no_leading_backtick outro = true ->
   strip_code_fence (intro ++ fence_python ++ body ++ fence ++ outro)
   = Some (strip body))
  /\ strip_code_fence (intro ++ fence_python ++ body) = Some (strip body)
  /\ (contains fence_python (intro ++ fence ++ body ++ fence ++ outro) = false ->
      strip_code_fence (intro ++ fence ++ body ++ fence ++ outro)
      = Some (strip body)).
Proof.
  intros Hintro Hbody. split; [|split].
  - intros Houtro. rewrite strip_code_fence_cases.
    destruct (cut_after_no_backtick fence_python fence_python_backtick
                intro (body ++ fence ++ outro) Hintro) as [_ [Hafter ->]].
    rewrite Hafter.
    destruct (skip_no_backtick fence_python fence_python_backtick
                body (fence ++ outro) Hbody) as [-> _].
    destruct (tagged_after_closing outro Houtro) as [->|[t ->]].
    + rewrite append_empty_r.
      now rewrite (text_before_none fence body)
        by now apply (no_backtick_free fence fence_backtick).
    + destruct (cut_after_no_backtick fence fence_backtick body t Hbody) as [-> _].
      reflexivity.
  - rewrite strip_code_fence_cases.
    destruct (cut_after_no_backtick fence_python fence_python_backtick
                intro body Hintro) as [_ [Hafter ->]].
    rewrite Hafter.
    rewrite (text_before_none fence_python body)
      by now apply (no_backtick_free fence_python fence_python_backtick).
    now rewrite (text_before_none fence body)
      by now apply (no_backtick_free fence fence_backtick).
  - intros Hnone. rewrite strip_code_fence_cases, Hnone.
    destruct (cut_after_no_backtick fence fence_backtick
                intro (body ++ fence ++ outro) Hintro) as [_ [Hafter ->]].
    rewrite Hafter.
    destruct (cut_after_no_backtick fence fence_backtick body outro Hbody) as [-> _].
    reflexivity.
Qed.

Lemma fenced_code_round_trip_witness :
  strip_code_fence
    ("Here it is:" ++ newline ++ fence_python
     ++ (newline ++ "def f(): pass" ++ newline) ++ fence ++ (newline ++ "Done."))
  = Some "def f(): pass".
Proof.
  apply (fenced_code_round_trip ("Here it is:" ++ newline)
           (newline ++ "def f(): pass" ++ newline) (newline ++ "Done."));
    reflexivity.
Defined.

(** X7. When the reply holds a fence, the documented code that document_node
    stores has no white space at its ends and holds no fence. *)
Theorem documented_code_trimmed (state state' : CodeState) (reply : string) :
  document_node state reply = Some state' ->
  contains fence reply = true ->
  trimmed (documented_code state') = true
  /\ contains fence (documented_code state') = false.
Proof.
  unfold document_node. rewrite strip_code_fence_cases.
  intros H Hf. injection H as <-. cbn [documented_code]. rewrite Hf.
  destruct (contains fence_python reply);
    (split; [apply strip_trimmed
            | apply strip_keeps_free, text_before_free, fence_nonempty]).
Qed.

Lemma documented_code_trimmed_witness :
  trimmed "def f(): pass" = true /\ contains fence "def f(): pass" = false.
Proof.
  apply (documented_code_trimmed (initial_state invalid_code)
           {| original_code := invalid_code;
              documented_code := "def f(): pass";
              has_documentation := false;
              libraries_used := [];
              test_results := [];
              issues_found := [];
              current_step := "documented" |}
           fenced_reply); reflexivity.
Defined.

End FenceRoundTrip.

(** ** The walk reaches every node *)

Section WalkAll.

Lemma preorder_alias (names : list alias) :
  flat_map preorder (map Alias names) = map Alias names.
Proof.
  induction names as [|a names IH]; cbn [map flat_map preorder app];
    [reflexivity | now rewrite IH].
Qed.

Lemma preorder_children (n : node) :
  preorder n = n :: flat_map preorder (iter_child_nodes n).
Proof.
  destruct n as [names|m names l|a|children]; cbn [preorder iter_child_nodes flat_map];
    try rewrite preorder_alias; reflexivity.
Qed.

Lemma walk_queue_all (todo : list node) :
  Permutation (walk_queue todo) (flat_map preorder todo).
Proof.
  remember (queue_size todo) as k eqn:Hk. revert todo Hk.
  induction k as [k IH] using lt_wf_ind. intros [|n todo] Hk.
  - rewrite walk_queue_equation_1. constructor.
  - rewrite walk_queue_equation_2. cbn [flat_map].
    rewrite preorder_children. cbn [app]. constructor.
    rewrite (IH (queue_size (todo ++ iter_child_nodes n))); [| |reflexivity].
    + rewrite flat_map_app. apply Permutation_app_comm.
    + subst k. unfold queue_size. rewrite map_app, list_sum_app.
      change (list_sum (map size (n :: todo)))
        with (size n + list_sum (map size todo)).
      enough (list_sum (map size (iter_child_nodes n)) < size n) by lia.
      destruct n as [names|m names l|a|children]; cbn [iter_child_nodes size].
      * rewrite map_map. cbn [size]. clear. induction names; simpl in *; lia.
      * rewrite map_map. cbn [size]. clear. induction names; simpl in *; lia.
      * simpl. lia.
      * lia.
Qed.

Lemma length_preorder (n : node) : List.length (preorder n) = size n.
Proof.
  revert n.
  exact (fix go (n : node) : List.length (preorder n) = size n :=
           match n with
           | Import names => f_equal S (length_map Alias names)
           | ImportFrom _ names _ => f_equal S (length_map Alias names)
           | Alias _ => eq_refl
           | Other children =>
               f_equal S
                 ((fix all (cs : list node)
                     : List.length (flat_map preorder cs) = list_sum (map size cs) :=
                     match cs with
                     | [] => eq_refl
                     | c :: cs' =>
                         eq_trans (length_app (preorder c) (flat_map preorder cs'))
                           (f_equal2 Nat.add (go c) (all cs'))
                     end) children)
           end).
Qed.

End WalkAll.

Section WalkClaims.

Variable parse : string -> option node.

(** X1. research_node finds the imports at any depth: its libraries are the
    entries of all the nodes of the tree, each node counted once, in the
    order of the walk; so every name of every import or from-import of the
    tree is in the list, and the walk yields as many nodes as the tree has. *)
Theorem imports_found_at_any_depth (code : string) (tree : node) :
  parse code = Some tree ->
  Permutation (extract_libraries parse code) (flat_map entries (preorder tree))
  /\ List.length (walk tree) = size tree
  /\ (forall n entry,
        In n (preorder tree) -> In entry (entries n) ->
        In entry (extract_libraries parse code)).
Proof.
  intros H. unfold extract_libraries. rewrite H, collect_imports_walk.
  assert (Hw : Permutation (walk tree) (preorder tree)).
  { unfold walk. rewrite walk_queue_all. cbn [flat_map]. now rewrite app_nil_r. }
  split; [now apply Permutation_flat_map|].
  split; [rewrite (Permutation_length Hw); apply length_preorder|].
  intros n entry Hn He. apply in_flat_map. exists n. split; [|exact He].
  apply (Permutation_in n (Permutation_sym Hw) Hn).
Qed.

End WalkClaims.

Section WalkExamples.

Lemma imports_found_at_any_depth_witness :
  In "json" (extract_libraries example_parse imports_first_code).
Proof.
  apply (proj2 (proj2 (imports_found_at_any_depth example_parse
                         imports_first_code imports_first eq_refl))
           (Import [alias_of "json"]) "json").
  - cbn. tauto.
  - now left.
Defined.

End WalkExamples.

(** ** What a run leaves behind *)

Section RunResults.

Variable parse : string -> option node.
Variable model : replies.

Lemma analyze_node_keeps (state : CodeState) (reply : content) :
  original_code (analyze_node state reply) = original_code state
  /\ documented_code (analyze_node state reply) = documented_code state
  /\ has_documentation (analyze_node state reply) = has_documentation state
  /\ libraries_used (analyze_node state reply) = libraries_used state
  /\ test_results (analyze_node state reply) = [reply_text reply]
  /\ issues_found (analyze_node state reply)
     = issues_found (analyze_node (initial_state EmptyString) reply).
Proof. destruct reply; cbn; auto 10. Qed.

Lemma researched_state (code : string) :
  research_node parse (initial_state code)
  = {| original_code := code;
       documented_code := EmptyString;
       has_documentation := has_docs code;
       libraries_used := extract_libraries parse code;
       test_results := [];
       issues_found := [];
       current_step := "researched" |}.
Proof. reflexivity. Qed.

Lemma documented_state (code : string) (s2 : CodeState) :
  document_node (research_node parse (initial_state code)) (document_reply model)
  = Some s2 ->
  exists cleaned,
    strip_code_fence (document_reply model) = Some cleaned
    /\ s2 = {| original_code := code;
               documented_code := cleaned;
               has_documentation := has_docs code;
               libraries_used := extract_libraries parse code;
               test_results := [];
               issues_found := [];
               current_step := "documented" |}.
Proof.
  unfold document_node. destruct (strip_code_fence (document_reply model)) as [cleaned|];
    [|discriminate].
  intros H. injection H as <-. now exists cleaned.
Qed.

End RunResults.

Section RunCalls.

Variable parse : string -> option node.
Variable calls : collaborators.

Lemma exec_calls_research (state : CodeState) :
  exec_calls parse calls (Research, state)
  = match research_call calls with
    | Returns _ =>
        Next (if has_docs (original_code state) then Analyze else Document,
              research_node parse state)
    | Raises => Aborted
    end.
Proof.
  cbn [exec_calls]. destruct (research_call calls); [|reflexivity].
  unfold should_skip_documentation. cbn [research_node has_documentation].
  now destruct (has_docs (original_code state)).
Qed.

Lemma exec_calls_document (state : CodeState) :
  exec_calls parse calls (Document, state)
  = match document_call calls with
    | Returns reply =>
        match strip_code_fence reply with
        | Some cleaned =>
            Next (Analyze,
                  {| original_code := original_code state;
                     documented_code := cleaned;
                     has_documentation := has_documentation state;
                     libraries_used := libraries_used state;
                     test_results := test_results state;
                     issues_found := issues_found state;
                     current_step := "documented" |})
        | None => Aborted
        end
    | Raises => Aborted
    end.
Proof.
  cbn [exec_calls]. destruct (document_call calls) as [reply|]; [|reflexivity].
  unfold document_node. now destruct (strip_code_fence reply).
Qed.

(** X8. A run reaches END exactly when every call it comes to returns: the
    call of research_node, that of document_node when the code is found
    undocumented, and that of analyze_node; a call that raises aborts the
    run before final_node. In every state gone through original_code is
    the input. The state at END has current_step "completed",
    has_documentation and libraries_used as research_node found them,
    test_results made of the text of the analysis reply alone, and as
    documented_code the cleaned reply of the model when the code was found
    undocumented, and the empty text when it was found documented. *)
Theorem run_final_state (code : string) :
  (snd (run_with_calls parse calls code) = false
   <-> calls_return calls code = true)
  /\ (snd (run_with_calls parse calls code) = true ->
      forall c, In c (fst (run_with_calls parse calls code)) -> fst c <> END)
  /\ (forall c, In c (fst (run_with_calls parse calls code)) ->
                original_code (snd c) = code)
  /\ (snd (run_with_calls parse calls code) = false ->
      exists final,
        last (fst (run_with_calls parse calls code)) (Research, initial_state code)
        = (END, final)
        /\ original_code final = code
        /\ has_documentation final = has_docs code
        /\ libraries_used final = extract_libraries parse code
        /\ (has_docs code = true -> documented_code final = EmptyString)
        /\ (has_docs code = false ->
            exists reply, document_call calls = Returns reply
                          /\ strip_code_fence reply = Some (documented_code final))
        /\ (exists reply,
               analyze_call calls = Returns reply
               /\ test_results final = [reply_text reply]
               /\ issues_found final
                  = issues_found (analyze_node (initial_state EmptyString) reply))
        /\ current_step final = "completed").
Proof.
  unfold run_with_calls, calls_return. cbn [run_calls].
  rewrite exec_calls_research. cbn [original_code initial_state].
  destruct (research_call calls) as [u|].
  2:{ cbn [fst snd]. repeat split; try discriminate.
      - intros c Hc [<-|[]]. discriminate.
      - intros c [<-|[]]. reflexivity. }
  rewrite researched_state.
  destruct (has_docs code) eqn:H.
  - (* found documented: analyze comes next *)
    cbn [exec_calls]. destruct (analyze_call calls) as [a|].
    + destruct (analyze_node_keeps
                  {| original_code := code; documented_code := EmptyString;
                     has_documentation := true;
                     libraries_used := extract_libraries parse code;
                     test_results := []; issues_found := [];
                     current_step := "researched" |} a)
        as [K1 [K2 [K3 [K4 [K5 K6]]]]].
      cbn [fst snd orb]. split; [split; reflexivity|].
      split; [discriminate|]. split.
      * intros c [<-|[<-|[<-|[<-|[]]]]]; cbn [snd final_node original_code];
          try rewrite K1; reflexivity.
      * intros _. eexists. split; [reflexivity|].
        cbn [final_node original_code documented_code has_documentation
             libraries_used test_results issues_found current_step].
        rewrite K1, K2, K3, K4. cbn [original_code documented_code
          has_documentation libraries_used].
        repeat split; try reflexivity; try discriminate.
        exists a. repeat split; [exact K5 | exact K6].
    + cbn [fst snd]. split; [split; discriminate|].
      split; [intros _ c [<-|[<-|[]]]; discriminate|].
      split; [intros c [<-|[<-|[]]]; reflexivity | discriminate].
  - (* found undocumented: document comes next *)
    cbn [run_calls]. rewrite exec_calls_document.
    cbn [original_code has_documentation libraries_used test_results issues_found].
    destruct (document_call calls) as [d|].
    2:{ cbn [fst snd orb].
        split; [split; [discriminate | now destruct (analyze_call calls)]|].
        split; [intros _ c [<-|[<-|[]]]; discriminate|].
        split; [intros c [<-|[<-|[]]]; reflexivity | discriminate]. }
    destruct (strip_code_fence_total d) as [cleaned Hd]. rewrite Hd.
    cbn [exec_calls]. destruct (analyze_call calls) as [a|].
    + destruct (analyze_node_keeps
                  {| original_code := code; documented_code := cleaned;
                     has_documentation := false;
                     libraries_used := extract_libraries parse code;
                     test_results := []; issues_found := [];
                     current_step := "documented" |} a)
        as [K1 [K2 [K3 [K4 [K5 K6]]]]].
      cbn [fst snd orb]. split; [split; reflexivity|].
      split; [discriminate|]. split.
      * intros c [<-|[<-|[<-|[<-|[<-|[]]]]]]; cbn [snd final_node original_code];
          try rewrite K1; reflexivity.
      * intros _. eexists. split; [reflexivity|].
        cbn [final_node original_code documented_code has_documentation
             libraries_used test_results issues_found current_step].
        rewrite K1, K2, K3, K4. cbn [original_code documented_code
          has_documentation libraries_used].
        repeat split; try reflexivity; try discriminate.
        -- intros _. exists d. split; [reflexivity | exact Hd].
        -- exists a. repeat split; [exact K5 | exact K6].
    + cbn [fst snd]. split; [split; discriminate|].
      split; [intros _ c [<-|[<-|[<-|[]]]]; discriminate|].
      split; [intros c [<-|[<-|[<-|[]]]]; reflexivity | discriminate].
Qed.

End RunCalls.

Section RunFiles.

Variable parse : string -> option node.
Variable model : replies.

Lemma or_else_same (x : string) : or_else x x = x.
Proof. unfold or_else. now destruct (x =? EmptyString). Qed.

Lemma or_else_empty (x y : string) : or_else x y = EmptyString -> y = EmptyString.
Proof.
  unfold or_else. destruct (x =? EmptyString) eqn:E; [auto|].
  intros ->. discriminate.
Qed.

(** X9. The code given to the analyzer and the code written to code.py are the
    same text: the input itself when it was found documented, and otherwise
    the cleaned reply of the model, or the input when that reply is empty.
    The text is empty only when the input is. *)
Theorem saved_code_of_run (code : string) (at_analyze at_final : CodeState) :
  In (Analyze, at_analyze) (run_documentation_workflow parse model code) ->
  In (Final, at_final) (run_documentation_workflow parse model code) ->
  code_to_analyze at_analyze = code_to_save at_final
  /\ (has_docs code = true -> code_to_save at_final = code)
  /\ (has_docs code = false ->
      exists cleaned, strip_code_fence (document_reply model) = Some cleaned
                      /\ code_to_save at_final = or_else cleaned code)
  /\ (code_to_save at_final = EmptyString -> code = EmptyString).
Proof.
  destruct (has_docs code) eqn:H.
  - destruct (run_skipping parse model code H) as [s2 [Hs2 ->]].
    rewrite (researched_state parse code) in Hs2.
    destruct (analyze_node_keeps s2 (analyze_reply model)) as [K1 [K2 _]].
    intros [Ha|[Ha|[Ha|[Ha|[]]]]]; try discriminate Ha.
    intros [Hf|[Hf|[Hf|[Hf|[]]]]]; try discriminate Hf.
    injection Ha as <-. injection Hf as <-.
    unfold code_to_analyze, code_to_save. rewrite K1, K2. subst s2.
    cbn [original_code documented_code]. cbn [or_else String.eqb].
    repeat split; auto; discriminate.
  - destruct (run_documenting parse model code H) as [s1 [s2 [Hs1 [Hs2 ->]]]].
    subst s1. destruct (documented_state parse model code s2 Hs2) as [cleaned [Hc Hs]].
    destruct (analyze_node_keeps s2 (analyze_reply model)) as [K1 [K2 _]].
    intros [Ha|[Ha|[Ha|[Ha|[Ha|[]]]]]]; try discriminate Ha.
    intros [Hf|[Hf|[Hf|[Hf|[Hf|[]]]]]]; try discriminate Hf.
    injection Ha as <-. injection Hf as <-.
    unfold code_to_analyze, code_to_save. rewrite K1, K2. subst s2.
    cbn [original_code documented_code].
    split; [reflexivity|]. split; [discriminate|].
    split; [intros _; now exists cleaned | apply or_else_empty].
Qed.

Lemma enumerate_spec (xs : list string) (start : nat) :
  map fst (enumerate xs start) = seq start (List.length xs)
  /\ map snd (enumerate xs start) = xs.
Proof.
  revert start; induction xs as [|x xs IH]; intros start; [now cbn|].
  destruct (IH (S start)) as [IH1 IH2]. cbn. now rewrite IH1, IH2.
Qed.

(** X10. The report written at the end of a run never uses the lines kept for an
    empty list of issues or of test results: it lists the issues found, each
    once, numbered from 1 in their order, and one test block, "Test 1", with
    the text of the analysis reply. *)
Theorem report_of_run (code timestamp : string) (at_final : CodeState) :
  In (Final, at_final) (run_documentation_workflow parse model code) ->
  save_analysis_results timestamp at_final
  = (report_title timestamp
     ++ libraries_lines at_final
     ++ issues_title
     ++ map issue_line (enumerate (issues_found at_final) 1)
     ++ tests_title
     ++ [test_block (1, reply_text (analyze_reply model))]
     ++ usage_guidelines)%list
  /\ map fst (enumerate (issues_found at_final) 1)
     = seq 1 (List.length (issues_found at_final))
  /\ map snd (enumerate (issues_found at_final) 1) = issues_found at_final
  /\ issues_found at_final <> [].
Proof.
  intros Hin.
  assert (Hst : exists s, at_final = analyze_node s (analyze_reply model)).
  { destruct (has_docs code) eqn:H.
    - destruct (run_skipping parse model code H) as [s2 [_ Hrun]].
      rewrite Hrun in Hin.
      destruct Hin as [Hf|[Hf|[Hf|[Hf|[]]]]]; try discriminate Hf.
      injection Hf as <-. now exists s2.
    - destruct (run_documenting parse model code H) as [s1 [s2 [_ [_ Hrun]]]].
      rewrite Hrun in Hin.
      destruct Hin as [Hf|[Hf|[Hf|[Hf|[Hf|[]]]]]]; try discriminate Hf.
      injection Hf as <-. now exists s2. }
  destruct Hst as [s ->].
  destruct (enumerate_spec (issues_found (analyze_node s (analyze_reply model))) 1)
    as [E1 E2].
  assert (Hne : issues_found (analyze_node s (analyze_reply model)) <> []).
  { apply issues_found_nonempty. }
  split; [|now repeat split].
  unfold save_analysis_results, issues_lines, tests_lines.
  destruct (analyze_node_keeps s (analyze_reply model)) as [_ [_ [_ [_ [K5 _]]]]].
  rewrite K5. cbn [enumerate map].
  destruct (issues_found (analyze_node s (analyze_reply model))); [contradiction|].
  reflexivity.
Qed.

End RunFiles.

Section RunFilesExamples.

Lemma saved_code_of_run_witness :
  code_to_save
    (analyze_node (research_node example_parse (initial_state commented_code))
       (analyze_reply example_replies))
  = commented_code.
Proof.
  apply (saved_code_of_run example_parse example_replies commented_code
           (research_node example_parse (initial_state commented_code))
           (analyze_node (research_node example_parse (initial_state commented_code))
              (analyze_reply example_replies))).
  - cbn. tauto.
  - cbn. tauto.
  - reflexivity.
Defined.

Lemma report_of_run_witness :
  map snd
    (enumerate
       (issues_found
          (analyze_node (research_node example_parse (initial_state commented_code))
             (analyze_reply example_replies))) 1)
  = ["No critical issues identified during analysis"].
Proof.
  apply (report_of_run example_parse example_replies commented_code
           "2025-01-01 00:00:00"
           (analyze_node (research_node example_parse (initial_state commented_code))
              (analyze_reply example_replies))).
  cbn. tauto.
Defined.

End RunFilesExamples.

(** ** The tools *)

Section ToolFacts.

Lemma length_substring (n : nat) (s : string) :
  String.length (substring 0 n s) = Nat.min n (String.length s).
Proof.
  revert s; induction n as [|n IH]; intros [|c s]; cbn; auto.
Qed.

Lemma collect_formatted (results : list search_result) (formatted : list string) :
  fold_left (fun formatted result => (formatted ++ [format_result result])%list)
    results formatted
  = (formatted ++ map format_result results)%list.
Proof.
  revert formatted; induction results as [|r results IH]; intros formatted;
    cbn [fold_left map].
  - now rewrite app_nil_r.
  - rewrite IH. now rewrite <- app_assoc.
Qed.

Lemma concat_starts (sep x : string) (xs : list string) :
  exists rest, String.concat sep (x :: xs) = x ++ rest.
Proof.
  destruct xs as [|y ys]; cbn [String.concat].
  - exists EmptyString. now rewrite append_empty_r.
  - now eexists.
Qed.

(** X11. search_library_info joins one block per result with a line of three
    dashes. A block is "Source: ", the url (or "N/A"), a newline, "Content: ",
    at most the first 200 characters of the content (or of "No content") and
    three dots, cut or not. The answer is empty exactly when the search
    returns nothing. *)
Theorem search_library_info_format
    (search : string -> list search_result) (library_name : string) :
  search_library_info search library_name
  = String.concat results_separator
      (map format_result (search (search_query library_name)))
  /\ (forall result,
        String.length (format_result result)
        = String.length (get_or (result_url result) "N/A") + 21
          + Nat.min 200 (String.length (get_or (result_content result) "No content")))
  /\ (search_library_info search library_name = EmptyString
      <-> search (search_query library_name) = []).
Proof.
  assert (Heq : search_library_info search library_name
                = String.concat results_separator
                    (map format_result (search (search_query library_name)))).
  { unfold search_library_info. cbv zeta. now rewrite collect_formatted. }
  split; [exact Heq|]. split.
  - intros result. unfold format_result. cbv zeta.
    rewrite !length_append, length_substring. cbn [String.length newline]. lia.
  - rewrite Heq. destruct (search (search_query library_name)) as [|r rs]; cbn [map].
    + split; reflexivity.
    + split; [|discriminate].
      destruct (concat_starts results_separator (format_result r) (map format_result rs))
        as [rest ->].
      unfold format_result. cbv zeta. cbn [append]. discriminate.
Qed.

(** X12. execute_code returns a text whatever the tool returns or whichever
    [Exception] it raises, and the head of the text tells which: "Execution
    successful:" is followed by the output, "Execution failed:" by the
    message, and neither text starts as the other does. Only an exception
    that is not an [Exception] gets through. *)
Theorem execute_code_header (python_tool : string -> tool_outcome) (code : string) :
  (execute_code python_tool code = None <-> python_tool code = RaisedOther)
  /\ forall text, execute_code python_tool code = Some text ->
       (exists output,
           python_tool code = Returned output
           /\ text = execution_successful ++ output
           /\ prefix execution_failed text = false)
       \/ (exists message,
              python_tool code = RaisedException message
              /\ text = execution_failed ++ message
              /\ prefix execution_successful text = false).
Proof.
  unfold execute_code. destruct (python_tool code) as [output|message|]; split;
    try (split; discriminate); try (split; reflexivity).
  - intros text H. injection H as <-. left. exists output. repeat split.
  - intros text H. injection H as <-. right. exists message. repeat split.
  - intros text H. discriminate.
Qed.

(** X13. A reply of the analyzer that quotes the head of a failed execution,
    "Execution failed:", has the line that holds it among the issues. *)
Theorem failed_execution_is_an_issue (state : CodeState) (report : string) :
  (exists before after, report = before ++ "Execution failed:" ++ after) ->
  exists issue a b,
    In issue (issues_found (analyze_node state (Text report)))
    /\ issue = a ++ "Execution failed:" ++ b.
Proof. intros H. now apply catch_piece. Qed.

End ToolFacts.

Section ToolExamples.

Lemma execute_code_header_witness :
  execute_code (fun _ => RaisedOther) "1/0" = None.
Proof.
  apply (proj1 (execute_code_header (fun _ => RaisedOther) "1/0")). reflexivity.
Defined.

Lemma search_library_info_format_witness :
  search_library_info (fun _ => []) "numpy" = EmptyString.
Proof.
  apply (proj2 (proj2 (search_library_info_format (fun _ => []) "numpy"))).
  reflexivity.
Defined.

Lemma failed_execution_is_an_issue_witness :
  exists issue a b,
    In issue
       (issues_found
          (analyze_node (initial_state invalid_code)
             (Text ("Ran it." ++ newline ++ "  Execution failed:" ++ newline
                    ++ "division by zero"))))
    /\ issue = a ++ "Execution failed:" ++ b.
Proof.
  apply (failed_execution_is_an_issue (initial_state invalid_code)).
  exists ("Ran it." ++ newline ++ "  "), (newline ++ "division by zero").
  reflexivity.
Defined.

End ToolExamples.

(** ** process_list *)

Section ProcessList.

Local Open Scope Z_scope.

Lemma process_list_from (pre post : list Z) (total : Z) :
  fold_left
    (fun total i =>
       match total, nth_error (pre ++ post)%list i with
       | Some t, Some item => Some (t + item * 2)
       | _, _ => None
       end)
    (seq (List.length pre) (List.length post)) (Some total)
  = Some (total + 2 * fold_right Z.add 0 post).
Proof.
  revert pre total; induction post as [|x post IH]; intros pre total.
  - cbn. f_equal. lia.
  - cbn [List.length seq fold_left fold_right].
    rewrite nth_error_app2 by lia. rewrite Nat.sub_diag. cbn [nth_error].
    replace (pre ++ x :: post)%list with ((pre ++ [x]) ++ post)%list
      by now rewrite <- app_assoc.
    replace (S (List.length pre)) with (List.length (pre ++ [x])%list)
      by (rewrite length_app; simpl; lia).
    rewrite IH. f_equal. lia.
Qed.

(** X15. process_list returns twice the sum of the integers of the list, 0 for
    the empty list, and its indexing never leaves the list. *)
Theorem process_list_doubles (items : list Z) :
  Sample.process_list items = Some (2 * fold_right Z.add 0 items).
Proof.
  unfold Sample.process_list.
  etransitivity; [exact (process_list_from [] items 0) | f_equal; lia].
Qed.

End ProcessList.

(** ** setup_environment *)

Section Setup.

Variable getpass : string -> string.

Lemma ensure_key_spec (key prompt : string) (env : environ) (shown : list string) :
  let '(env', shown') := ensure_key getpass key prompt (env, shown) in
  env' key <> None
  /\ (forall k v, env k = Some v -> env' k = Some v)
  /\ (forall k, k <> key -> env' k = env k)
  /\ (env key <> None -> env' = env /\ shown' = shown).
Proof.
  cbn [ensure_key]. destruct (env key) as [v|] eqn:E.
  - repeat split; auto. rewrite E. discriminate.
  - unfold set_key. split; [|split; [|split]].
    + rewrite String.eqb_refl. discriminate.
    + intros k v Hk. destruct (String.eqb_spec k key) as [->|_]; [congruence | exact Hk].
    + intros k Hk. now destruct (String.eqb_spec k key).
    + intros Hset. contradiction.
Qed.

Lemma setup_environment_exact (env : environ) :
  snd (setup_environment getpass env)
  = ((match env google_api_key with None => [google_prompt] | Some _ => [] end)
     ++ (match env tavily_api_key with None => [tavily_prompt] | Some _ => [] end))%list
  /\ fst (setup_environment getpass env) google_api_key
     = Some (match env google_api_key with
             | Some v => v
             | None => getpass google_prompt
             end)
  /\ fst (setup_environment getpass env) tavily_api_key
     = Some (match env tavily_api_key with
             | Some v => v
             | None => getpass tavily_prompt
             end).
Proof.
  unfold setup_environment, ensure_key, set_key, google_api_key, tavily_api_key.
  destruct (env "GOOGLE_API_KEY") as [g|] eqn:EG; cbn;
    destruct (env "TAVILY_API_KEY") as [t|] eqn:ET; cbn;
    rewrite ?EG, ?ET; auto.
Qed.

(** X14. setup_environment asks for a key exactly when it is missing, for
    the Google key first: the prompts it shows are those of the missing
    keys and no other. A key that was set keeps its value, a missing one
    gets what was typed at its prompt, and every other variable is as it
    was. Both keys are set in the end, so running it again asks nothing and
    changes nothing, and create_model finds its key. *)
Theorem setup_environment_sets_keys (env : environ) :
  snd (setup_environment getpass env)
  = ((match env google_api_key with None => [google_prompt] | Some _ => [] end)
     ++ (match env tavily_api_key with None => [tavily_prompt] | Some _ => [] end))%list
  /\ fst (setup_environment getpass env) google_api_key
     = Some (match env google_api_key with
             | Some v => v
             | None => getpass google_prompt
             end)
  /\ fst (setup_environment getpass env) tavily_api_key
     = Some (match env tavily_api_key with
             | Some v => v
             | None => getpass tavily_prompt
             end)
  /\ fst (setup_environment getpass env) google_api_key <> None
  /\ fst (setup_environment getpass env) tavily_api_key <> None
  /\ create_model_key (fst (setup_environment getpass env)) <> None
  /\ (forall k v, env k = Some v -> fst (setup_environment getpass env) k = Some v)
  /\ (forall k, k <> google_api_key -> k <> tavily_api_key ->
        fst (setup_environment getpass env) k = env k)
  /\ (env google_api_key <> None -> env tavily_api_key <> None ->
      setup_environment getpass env = (env, []))
  /\ setup_environment getpass (fst (setup_environment getpass env))
     = (fst (setup_environment getpass env), []).
Proof.
  destruct (setup_environment_exact env) as [X1 [X2 X3]].
  split; [exact X1|]. split; [exact X2|]. split; [exact X3|]. clear X1 X2 X3.
  unfold setup_environment, create_model_key.
  pose proof (ensure_key_spec google_api_key google_prompt env []) as H1.
  destruct (ensure_key getpass google_api_key google_prompt (env, [])) as [e1 p1].
  destruct H1 as [G1 [G2 [G3 G4]]].
  pose proof (ensure_key_spec tavily_api_key tavily_prompt e1 p1) as H2.
  destruct (ensure_key getpass tavily_api_key tavily_prompt (e1, p1)) as [e2 p2].
  destruct H2 as [T1 [T2 [T3 T4]]]. cbn [fst].
  assert (Hg : e2 google_api_key <> None).
  { destruct (e1 google_api_key) as [v|] eqn:E; [|contradiction].
    rewrite (T2 _ _ E). discriminate. }
  split; [exact Hg|]. split; [exact T1|]. split; [exact Hg|].
  split; [intros k v Hk; apply T2, G2, Hk|].
  split; [intros k Hkg Hkt; rewrite T3, G3; auto|].
  split.
  - intros Hgoogle Htavily. destruct (G4 Hgoogle) as [-> ->].
    destruct (T4 Htavily) as [-> ->]. reflexivity.
  - pose proof (ensure_key_spec google_api_key google_prompt e2 []) as H3.
    destruct (ensure_key getpass google_api_key google_prompt (e2, [])) as [e3 p3].
    destruct H3 as [_ [_ [_ G5]]]. destruct (G5 Hg) as [-> ->].
    pose proof (ensure_key_spec tavily_api_key tavily_prompt e2 []) as H4.
    destruct (ensure_key getpass tavily_api_key tavily_prompt (e2, [])) as [e4 p4].
    destruct H4 as [_ [_ [_ T5]]]. destruct (T5 T1) as [-> ->]. reflexivity.
Qed.

End Setup.

Section MoreExamples.

Lemma issues_are_report_lines_witness :
  "ZeroDivisionError: division by zero (an exception)" = no_issues
  \/ (qualifies "ZeroDivisionError: division by zero (an exception)" = true
      /\ trimmed "ZeroDivisionError: division by zero (an exception)" = true
      /\ contains newline "ZeroDivisionError: division by zero (an exception)" = false
      /\ exists before after,
           failing_report
           = before ++ "ZeroDivisionError: division by zero (an exception)" ++ after).
Proof.
  apply (issues_are_report_lines (initial_state commented_code) failing_report).
  now left.
Defined.

Lemma issues_catch_every_piece_witness :
  exists issue a b,
    In issue (issues_found (analyze_node (initial_state commented_code)
                              (Text failing_report)))
    /\ issue = a ++ "ZeroDivisionError: division by zero" ++ b.
Proof.
  apply (issues_catch_every_piece (initial_state commented_code) failing_report).
  - exists ("Ran 3 scenarios." ++ newline ++ "  "),
      (" (an exception)  " ++ newline ++ "fail" ++ newline
       ++ "Everything else behaved.").
    reflexivity.
  - reflexivity.
  - reflexivity.
  - reflexivity.
Defined.

Lemma split_join_round_trip_witness :
  String.concat newline (split newline failing_report) = failing_report
  /\ (forall part, In part (split newline failing_report) ->
        contains newline part = false)
  /\ 1 <= List.length (split newline failing_report).
Proof.
  apply (split_join_round_trip newline failing_report). discriminate.
Defined.

End MoreExamples.

Section RunCallsExamples.

Lemma run_final_state_witness :
  snd (run_with_calls example_parse
         {| research_call := Returns tt;
            document_call := Raises;
            analyze_call := Returns (Text "All tests passed.") |}
         commented_code)
  = false.
Proof.
  apply (proj1 (run_final_state example_parse
                  {| research_call := Returns tt;
                     document_call := Raises;
                     analyze_call := Returns (Text "All tests passed.") |}
                  commented_code)).
  reflexivity.
Defined.

End RunCallsExamples.
